(** * Course-connect: the focus timer and the study-session store

    A shallow embedding of the two React hooks of the repository,
    [useFocusTimer] (src/hooks/useFocusTimer.ts) and [useStudySessions],
    followed by the properties the specification states about them.

    Conventions of the embedding.
    - A hook is a record of its state cells ([useState], [useRef]); a handler
      is a function from that record to the new record and the list of
      side effects it emitted, in order.
    - The handlers of a hook close over the values of one render.  They are
      therefore functions of a [Render] (what the closure captured) and of the
      live cells (what functional updaters and refs see).  A handler invoked
      from the current render gets [render_of] the live state.
    - JavaScript numbers are exact: seconds and coins are integers ([Z]),
      minutes handed to the store are rationals ([Q]), [Math.floor] is
      [Z.div] resp. [Qfloor].
    - Updater functions run once per [setState] call (production React). *)

From Stdlib Require Import ZArith QArith Qround List String Ascii Bool Lia.
From Stdlib Require Import Permutation Sorted Lqa.
From Stdlib Require Import DecimalString DecimalZ DecimalPos.
Import ListNotations.

(** ** The countdown engine: [useFocusTimer] *)

Module FocusTimer.

Local Open Scope Z_scope.

(** type TimerStatus = "idle" | "running" | "paused" | "completed" *)
Inductive TimerStatus : Type := idle | running | paused | completed.

Definition TimerStatus_eqb (a b : TimerStatus) : bool :=
  match a, b with
  | idle, idle | running, running | paused, paused | completed, completed => true
  | _, _ => false
  end.

(** A repeating timer registered with [window.setInterval]: the handle the
    browser returned (always greater than zero) and the [duration] its
    callback captured when [startTimer] created it. *)
Record Interval : Type := mkInterval {
  handle : positive;
  captured_duration : Z
}.

(** What the hook does to the outside world. *)
Inductive Effect : Type :=
| ToastPaused                      (* toast "Timer Paused" *)
| ToastStopped                     (* toast "Timer Stopped" *)
| ToastCompleted (earnedCoins : Z) (* setTimeout(() => toast "Study Session Completed!", 100) *)
| LogTimerSession (minutes : Q).   (* logTimerSession(duration / 60) *)

(** The state cells of the hook, together with the part of the browser the
    hook talks to: the intervals that are currently scheduled and the next
    handle [setInterval] hands out. *)
Record Timer : Type := mkTimer {
  duration : Z;                    (* useState(25 * 60), seconds *)
  timeLeft : Z;                    (* useState(duration) *)
  status : TimerStatus;            (* useState("idle") *)
  coins : Z;                       (* useState(0) *)
  intervalRef : option positive;   (* useRef<number | null>(null) *)
  scheduled : list Interval;       (* window: active intervals *)
  next_handle : positive           (* window: fresh handle supply *)
}.

(** The values a handler's closure captured at its render. *)
Record Render : Type := mkRender {
  r_duration : Z;
  r_status : TimerStatus
}.

Definition render_of (t : Timer) : Render :=
  {| r_duration := duration t; r_status := status t |}.

Definition initial : Timer :=
  {| duration := 25 * 60; timeLeft := 25 * 60; status := idle; coins := 0;
     intervalRef := None; scheduled := []; next_handle := 1%positive |}.

Definition setDuration (d : Z) (t : Timer) : Timer :=
  mkTimer d (timeLeft t) (status t) (coins t) (intervalRef t) (scheduled t) (next_handle t).
Definition setTimeLeft (n : Z) (t : Timer) : Timer :=
  mkTimer (duration t) n (status t) (coins t) (intervalRef t) (scheduled t) (next_handle t).
Definition setStatus (s : TimerStatus) (t : Timer) : Timer :=
  mkTimer (duration t) (timeLeft t) s (coins t) (intervalRef t) (scheduled t) (next_handle t).
Definition setCoins (f : Z -> Z) (t : Timer) : Timer :=
  mkTimer (duration t) (timeLeft t) (status t) (f (coins t)) (intervalRef t) (scheduled t) (next_handle t).

(** [clearInterval(h)]: unschedules the interval with that handle; a null
    or unknown handle is ignored. *)
Definition clearInterval (h : option positive) (t : Timer) : Timer :=
  match h with
  | None => t
  | Some k =>
      mkTimer (duration t) (timeLeft t) (status t) (coins t) (intervalRef t)
              (filter (fun i => negb (Pos.eqb (handle i) k)) (scheduled t))
              (next_handle t)
  end.

(** [intervalRef.current = window.setInterval(callback, 1000)], where the
    callback closes over the [duration] of render [r]. *)
Definition setInterval (r : Render) (t : Timer) : Timer :=
  let h := next_handle t in
  mkTimer (duration t) (timeLeft t) (status t) (coins t) (Some h)
          (scheduled t ++ [mkInterval h (r_duration r)])
          (Pos.succ h).

Definition is_scheduled (h : positive) (t : Timer) : bool :=
  existsb (fun i => Pos.eqb (handle i) h) (scheduled t).

(** Math.max(1, Math.floor(duration / 10)) *)
Definition earnedCoins (d : Z) : Z := Z.max 1 (d / 10).

(** The interval callback, lines 35-66: the updater passed to
    [setTimeLeft] sees the live remaining time [prev]; [duration] is the
    captured one. *)
Definition tick (i : Interval) (t : Timer) : Timer * list Effect :=
  let prev := timeLeft t in
  if prev <=? 1 then
    let t1 := setStatus completed (clearInterval (intervalRef t) t) in
    if prev <=? 0 then (setTimeLeft 0 t1, [])
    else
      let earned := earnedCoins (captured_duration i) in
      (setTimeLeft 0 (setCoins (fun c => c + earned) t1),
       [LogTimerSession (inject_Z (captured_duration i) / 60)%Q;
        ToastCompleted earned])
  else (setTimeLeft (prev - 1) t, []).

(** One second of wall-clock time: every interval that was scheduled at the
    start of the second fires once, unless an earlier callback of the same
    second cleared it. *)
Fixpoint fire (l : list Interval) (t : Timer) : Timer * list Effect :=
  match l with
  | [] => (t, [])
  | i :: rest =>
      if is_scheduled (handle i) t then
        let (t1, e1) := tick i t in
        let (t2, e2) := fire rest t1 in
        (t2, e1 ++ e2)
      else fire rest t
  end.

Definition second (t : Timer) : Timer * list Effect := fire (scheduled t) t.

(** startTimer, lines 29-68. *)
Definition startTimer (r : Render) (t : Timer) : Timer * list Effect :=
  match r_status r with
  | idle | paused =>
      let t1 := setStatus running t in
      let t2 := match intervalRef t1 with
                | Some h => clearInterval (Some h) t1
                | None => t1
                end in
      (setInterval r t2, [])
  | _ => (t, [])
  end.

(** pauseTimer, lines 70-79. *)
Definition pauseTimer (r : Render) (t : Timer) : Timer * list Effect :=
  match r_status r with
  | running => (setStatus paused (clearInterval (intervalRef t) t), [ToastPaused])
  | _ => (t, [])
  end.

(** resumeTimer, lines 81-85. *)
Definition resumeTimer (r : Render) (t : Timer) : Timer * list Effect :=
  match r_status r with
  | paused => startTimer r t
  | _ => (t, [])
  end.

(** stopTimer, lines 87-95. *)
Definition stopTimer (r : Render) (t : Timer) : Timer * list Effect :=
  (setTimeLeft (r_duration r) (setStatus idle (clearInterval (intervalRef t) t)),
   [ToastStopped]).

(** resetTimer, lines 97-99. *)
Definition resetTimer (r : Render) (t : Timer) : Timer * list Effect :=
  stopTimer r t.

(** updateDuration, lines 101-107. *)
Definition updateDuration (r : Render) (minutes : Z) (t : Timer) : Timer * list Effect :=
  match r_status r with
  | idle =>
      let newDuration := minutes * 60 in
      (setTimeLeft newDuration (setDuration newDuration t), [])
  | _ => (t, [])
  end.

(** The effect of lines 23-27, run after a render whose [duration] or
    [status] differs from the previous render's:
    if (status === "idle") setTimeLeft(duration). *)
Definition sync_timeLeft (before after : Timer) : Timer :=
  if (Z.eqb (duration before) (duration after)
      && TimerStatus_eqb (status before) (status after))%bool
  then after
  else match status after with
       | idle => setTimeLeft (duration after) after
       | _ => after
       end.

(** The events the engine reacts to: the six handlers it returns, and the
    passing of a second. *)
Inductive Op : Type :=
| Start | Pause | Resume | Stop | Reset
| Configure (minutes : Z)
| Second.

Definition handler (o : Op) (r : Render) (t : Timer) : Timer * list Effect :=
  match o with
  | Start => startTimer r t
  | Pause => pauseTimer r t
  | Resume => resumeTimer r t
  | Stop => stopTimer r t
  | Reset => resetTimer r t
  | Configure m => updateDuration r m t
  | Second => second t
  end.

(** One event, handled by the closures of the current render, followed by
    the re-render and its effect. *)
Definition step (o : Op) (t : Timer) : Timer * list Effect :=
  let (t', e) := handler o (render_of t) t in
  (sync_timeLeft t t', e).

Fixpoint run (ops : list Op) (t : Timer) : Timer * list Effect :=
  match ops with
  | [] => (t, [])
  | o :: rest =>
      let (t1, e1) := step o t in
      let (t2, e2) := run rest t1 in
      (t2, e1 ++ e2)
  end.

(** [n] seconds in a row. *)
Definition seconds (n : nat) : list Op := repeat Second n.

(** The states the engine can be in: whatever a sequence of events makes
    of the state at mount. *)
Inductive reachable : Timer -> Prop :=
| reach_initial : reachable initial
| reach_step : forall o t, reachable t -> reachable (fst (step o t)).

(** Number of session-log calls in a trace. *)
Definition is_log (e : Effect) : bool :=
  match e with LogTimerSession _ => true | _ => false end.
Definition log_calls (es : list Effect) : list Effect := filter is_log es.

Definition is_completion_toast (e : Effect) : bool :=
  match e with ToastCompleted _ => true | _ => false end.

(** At most the interval in [intervalRef] is scheduled, and at most once. *)
Definition one_source (t : Timer) : Prop :=
  (forall i, In i (scheduled t) -> intervalRef t = Some (handle i)) /\
  (List.length (scheduled t) <= 1)%nat.

(** An interval is scheduled only while the engine runs, and its callback
    holds the current duration. *)
Definition running_source (t : Timer) : Prop :=
  forall i, In i (scheduled t) ->
    status t = running /\ captured_duration i = duration t.

(** The cleanup the mount effect returns, lines 17-21:
    if (intervalRef.current) clearInterval(intervalRef.current). *)
Definition unmount (t : Timer) : Timer :=
  match intervalRef t with
  | Some h => clearInterval (Some h) t
  | None => t
  end.

(** [n.toString()] for an integer [n]: its decimal numeral. *)
Definition toString (n : Z) : string := NilZero.string_of_int (Z.to_int n).

(** [s.padStart(2, "0")] *)
Definition padStart2 (s : string) : string :=
  match String.length s with
  | O => "00"%string
  | S O => String "0" s
  | _ => s
  end.

(** formatTime, lines 109-113; [%] is the remainder that takes the sign of
    the dividend. *)
Definition formatTime (timeInSeconds : Z) : string :=
  let minutes := timeInSeconds / 60 in
  let seconds := Z.rem timeInSeconds 60 in
  (padStart2 (toString minutes) ++ ":" ++ padStart2 (toString seconds))%string.

(** The [formattedTime] the hook returns, line 117. *)
Definition formattedTime (t : Timer) : string := formatTime (timeLeft t).

(** The coins the completion toasts of a trace announce. *)
Fixpoint announced (es : list Effect) : Z :=
  match es with
  | [] => 0
  | ToastCompleted c :: rest => c + announced rest
  | _ :: rest => announced rest
  end.

(** Events whose argument, if any, is a non-negative number of minutes. *)
Definition nonneg_op (o : Op) : Prop :=
  match o with
  | Configure m => 0 <= m
  | _ => True
  end.

End FocusTimer.

(** ** The record store: [useStudySessions] *)

Module StudySessions.

Local Open Scope Q_scope.

(** interface StudySession *)
Record StudySession : Type := mkStudySession {
  id : string;
  user_id : string;
  module_id : option string;       (* string | null *)
  duration : Q;                    (* in minutes *)
  date : string;
  notes : option string;
  created_at : option string;
  earned_coins : option Z
}.

(** interface Module *)
Record CourseModule : Type := mkCourseModule {
  cm_id : string;
  module_code : string;
  module_title : string
}.

(** The object literal [newSession] of line 90, the row handed to insert. *)
Record NewSession : Type := mkNewSession {
  ns_user_id : string;
  ns_module_id : option string;
  ns_duration : Q;
  ns_date : string;
  ns_notes : option string;
  ns_earned_coins : Z
}.

Record User : Type := mkUser { uid : string }.

(** The state cells of the hook. *)
Record Store : Type := mkStore {
  sessions : list StudySession;    (* useState<StudySession[]>([]) *)
  modules : list CourseModule;     (* useState<Module[]>([]) *)
  isLoading : bool                 (* useState(true) *)
}.

Definition mounted : Store :=
  {| sessions := []; modules := []; isLoading := true |}.

(** An awaited promise either resolves with a value or rejects, in which
    case [await] throws. *)
Inductive Awaited (A : Type) : Type :=
| Resolves (a : A)
| Rejects.
Arguments Resolves {A} a.
Arguments Rejects {A}.

(** The [{ data, error }] a query resolves with. *)
Record Reply (A : Type) : Type := mkReply {
  data : option A;
  error : option string
}.
Arguments mkReply {A} data error.
Arguments data {A} r.
Arguments error {A} r.

(** The remote collaborator, as the answers it gives to the four calls the
    hook makes.  An insert that returns rows returns at least the inserted
    one, so [data] of an insert is a non-empty array: its head and tail. *)
Record Supabase : Type := mkSupabase {
  auth_getUser : Awaited (option User);
  select_modules : Awaited (Reply (list CourseModule));
  select_sessions : string -> Awaited (Reply (list StudySession));
  insert_session : NewSession -> Awaited (Reply (StudySession * list StudySession))
}.

Inductive Effect : Type :=
| ConsoleErrorFetching             (* console.error('Error fetching data:', error) *)
| ToastLoadFailed                  (* toast 'Failed to load study sessions. ...' *)
| InsertRow (row : NewSession)     (* supabase.from('study_sessions').insert([newSession]) *)
| ToastLogged (earnedCoins : Z)    (* toast 'Study session logged successfully! ...' *)
| ConsoleErrorCreating             (* console.error('Error creating study session:', error) *)
| ToastLogFailed.                  (* toast 'Failed to log study session.' *)

(** What can be thrown inside the hook's [try] blocks. *)
Inductive Exn : Type :=
| NoActiveSession                  (* new Error('No active session') *)
| RemoteError (e : string)         (* throw error *)
| Rejection.                       (* an awaited promise rejected *)

(** Code of the hook: it reads and writes the state cells, emits effects,
    and ends with a value or with a thrown exception. *)
Definition M (A : Type) : Type := Store -> (A + Exn) * Store * list Effect.

Definition ret {A} (a : A) : M A := fun st => (inl a, st, []).

Definition bind {A B} (c : M A) (k : A -> M B) : M B :=
  fun st =>
    match c st with
    | (inl a, st1, e1) =>
        match k a st1 with
        | (r, st2, e2) => (r, st2, e1 ++ e2)
        end
    | (inr x, st1, e1) => (inr x, st1, e1)
    end.

Notation "x <- c ;; k" := (bind c (fun x => k))
  (at level 61, c at next level, right associativity).
Notation "c ;; k" := (bind c (fun _ => k))
  (at level 61, right associativity).

Definition throw {A} (x : Exn) : M A := fun st => (inr x, st, []).

Definition emit (e : Effect) : M unit := fun st => (inl tt, st, [e]).

Definition await {A} (p : Awaited A) : M A :=
  match p with
  | Resolves a => ret a
  | Rejects => throw Rejection
  end.

(** try { body } catch (error) { handler error } *)
Definition try_catch {A} (body : M A) (handler : Exn -> M A) : M A :=
  fun st =>
    match body st with
    | (inl a, st1, e1) => (inl a, st1, e1)
    | (inr x, st1, e1) =>
        match handler x st1 with
        | (r, st2, e2) => (r, st2, e1 ++ e2)
        end
    end.

(** try { body } finally { fin } *)
Definition try_finally {A} (body : M A) (fin : M unit) : M A :=
  fun st =>
    match body st with
    | (r, st1, e1) =>
        match fin st1 with
        | (inl _, st2, e2) => (r, st2, e1 ++ e2)
        | (inr x, st2, e2) => (inr x, st2, e1 ++ e2)
        end
    end.

Definition setSessions (f : list StudySession -> list StudySession) : M unit :=
  fun st => (inl tt, mkStore (f (sessions st)) (modules st) (isLoading st), []).
Definition setModules (l : list CourseModule) : M unit :=
  fun st => (inl tt, mkStore (sessions st) l (isLoading st), []).
Definition setIsLoading (b : bool) : M unit :=
  fun st => (inl tt, mkStore (sessions st) (modules st) b, []).

(** [data || []] *)
Definition or_empty {A} (d : option (list A)) : list A :=
  match d with Some l => l | None => [] end.

(** fetchData, lines 30-57.  Only [data] of each query reply is read. *)
Definition fetchData (db : Supabase) : M unit :=
  setIsLoading true ;;
  try_finally
    (try_catch
       (user <- await (auth_getUser db) ;;
        match user with
        | None => throw NoActiveSession
        | Some user =>
            modulesReply <- await (select_modules db) ;;
            setModules (or_empty (data modulesReply)) ;;
            sessionsReply <- await (select_sessions db (uid user)) ;;
            setSessions (fun _ => or_empty (data sessionsReply))
        end)
       (fun _ => emit ConsoleErrorFetching ;; emit ToastLoadFailed))
    (setIsLoading false).

(** getTotalStudyTime, lines 62-64. *)
Definition getTotalStudyTime (st : Store) : Q :=
  fold_left (fun total session => total + duration session) (sessions st) 0.

(** What an async function of the hook resolves with. *)
Inductive Returned : Type :=
| RetNull
| RetUndefined
| RetSession (s : StudySession).

(** Math.max(1, Math.floor(duration / 10)) *)
Definition earnedCoins (duration : Q) : Z := Z.max 1 (Qfloor (duration / 10)).

(** The object literal of line 90. *)
Definition newSession (user : User) (moduleId : option string) (duration : Q)
    (date : string) (notes : option string) : NewSession :=
  {| ns_user_id := uid user; ns_module_id := moduleId;
     ns_duration := duration; ns_date := date; ns_notes := notes;
     ns_earned_coins := earnedCoins duration |}.

(** createStudySession, lines 84-104. *)
Definition createStudySession (db : Supabase) (moduleId : option string)
    (duration : Q) (date : string) (notes : option string) : M Returned :=
  try_catch
    (user <- await (auth_getUser db) ;;
     match user with
     | None => throw NoActiveSession
     | Some user =>
         let earned := earnedCoins duration in
         let row := newSession user moduleId duration date notes in
         emit (InsertRow row) ;;
         reply <- await (insert_session db row) ;;
         match error reply with
         | Some e => throw (RemoteError e)
         | None =>
             match data reply with
             | Some (row, _) =>
                 setSessions (fun prev => row :: prev) ;;
                 emit (ToastLogged earned) ;;
                 ret (RetSession row)
             | None => ret RetUndefined
             end
         end
     end)
    (fun _ => emit ConsoleErrorCreating ;; emit ToastLogFailed ;; ret RetNull).

(** A string is truthy unless it is empty. *)
Definition truthy (s : string) : bool := negb (String.eqb s EmptyString).

(** [moduleId || null] *)
Definition or_null (moduleId : option string) : option string :=
  match moduleId with
  | Some s => if truthy s then Some s else None
  | None => None
  end.

(** logTimerSession, lines 107-110; [today] is
    new Date().toISOString().split('T')[0]. *)
Definition logTimerSession (db : Supabase) (today : string)
    (duration : Q) (moduleId : option string) : M Returned :=
  createStudySession db (or_null moduleId) duration today
                     (Some "Logged from Focus Timer"%string).

(** *** getMostStudiedModules

    [moduleStats] is an object literal used as a map from module id to
    minutes.  Its own properties are an association list in insertion
    order; behind them it inherits the members of Object.prototype. *)

(** What a property of [moduleStats] can hold: a number, or the string
    that [+] makes when its left operand is not a number.  The characters
    of such a string are left open; it is never empty and never a numeral,
    since it begins with the text of a function or of an object. *)
Inductive Value : Type :=
| Num (q : Q)
| Text.

Definition Stats : Type := list (string * Value).

(** The names Object.prototype defines. *)
Definition prototype_names : list string :=
  ["constructor"; "__defineGetter__"; "__defineSetter__"; "hasOwnProperty";
   "__lookupGetter__"; "__lookupSetter__"; "isPrototypeOf";
   "propertyIsEnumerable"; "toString"; "valueOf"; "__proto__";
   "toLocaleString"]%string.

Definition inherited (k : string) : bool :=
  existsb (String.eqb k) prototype_names.

(** The own property [k] of [o], if there is one. *)
Fixpoint own (k : string) (o : Stats) : option Value :=
  match o with
  | [] => None
  | (k', v) :: rest => if String.eqb k' k then Some v else own k rest
  end.

(** What the expression [o[k]] evaluates to: the own property, else the
    inherited member (a function, or for "__proto__" the prototype
    object), else undefined. *)
Inductive Read : Type :=
| Undefined
| Own (v : Value)
| Member.

Definition lookup (k : string) (o : Stats) : Read :=
  match own k o with
  | Some v => Own v
  | None => if inherited k then Member else Undefined
  end.

(** Defining or updating the own property [k]: an existing property keeps
    its place, a new one is added last. *)
Fixpoint set_own (k : string) (v : Value) (o : Stats) : Stats :=
  match o with
  | [] => [(k, v)]
  | (k', v') :: rest =>
      if String.eqb k' k then (k', v) :: rest else (k', v') :: set_own k v rest
  end.

(** [o[k] = v] for a number or a string [v].  Assigning to "__proto__"
    calls the inherited setter, which ignores a value that is not an
    object: no own property appears.  Every other name, inherited or not,
    becomes an own property. *)
Definition assign (k : string) (v : Value) (o : Stats) : Stats :=
  if String.eqb k "__proto__" then o else set_own k v o.

(** The left operand of [+] in line 71. *)
Inductive Operand : Type :=
| Number (q : Q)
| Other.                           (* a string, a function or an object *)

(** [x || 0]: undefined and the number 0 are falsy. *)
Definition or_zero (x : Read) : Operand :=
  match x with
  | Undefined => Number 0
  | Own (Num v) => if Qeq_bool v 0 then Number 0 else Number v
  | Own Text => Other
  | Member => Other
  end.

(** [x + d] for a number [d]: the sum of two numbers, else the
    concatenation of two strings. *)
Definition plus (x : Operand) (d : Q) : Value :=
  match x with
  | Number v => Num (v + d)
  | Other => Text
  end.

(** The body of the forEach callback, lines 70-72. *)
Definition add_session (moduleStats : Stats) (session : StudySession) : Stats :=
  match module_id session with
  | Some k =>
      if truthy k
      then assign k (plus (or_zero (lookup k moduleStats)) (duration session))
                  moduleStats
      else moduleStats
  | None => moduleStats
  end.

Definition moduleStats_of (l : list StudySession) : Stats :=
  fold_left add_session l [].

(** Property order of an ordinary object: array indices (canonical decimal
    numerals below 2^32 - 1) first, in ascending order, then the other
    string keys in insertion order. *)
Definition digit_of (c : ascii) : option N :=
  let n := N_of_ascii c in
  if ((48 <=? n) && (n <=? 57))%N then Some (n - 48)%N else None.

Fixpoint numeral (s : string) (acc : N) : option N :=
  match s with
  | EmptyString => Some acc
  | String c rest =>
      match digit_of c with
      | Some d => numeral rest (10 * acc + d)%N
      | None => None
      end
  end.

Definition array_index (s : string) : option N :=
  match s with
  | EmptyString => None
  | String c rest =>
      match digit_of c with
      | None => None
      | Some 0%N => match rest with EmptyString => Some 0%N | _ => None end
      | Some d =>
          if (String.length rest <=? 9)%nat then
            match numeral rest d with
            | Some n => if (n <=? 4294967294)%N then Some n else None
            | None => None
            end
          else None
      end
  end.

Definition is_index (e : string * Value) : bool :=
  match array_index (fst e) with Some _ => true | None => false end.

Definition index_of (e : string * Value) : N :=
  match array_index (fst e) with Some n => n | None => 0%N end.

Fixpoint insert_index (e : string * Value) (l : Stats) : Stats :=
  match l with
  | [] => [e]
  | y :: rest =>
      if (index_of e <=? index_of y)%N then e :: y :: rest
      else y :: insert_index e rest
  end.

(** Object.entries(o) *)
Definition Object_entries (o : Stats) : Stats :=
  fold_right insert_index [] (filter is_index o)
  ++ filter (fun e => negb (is_index e)) o.

(** The comparator of line 75: (a, b) => b[1] - a[1].  The difference is
    NaN, here [None], as soon as one of the two values is not a number. *)
Definition compareFn (a b : string * Value) : option Q :=
  match snd b, snd a with
  | Num y, Num x => Some (y - x)
  | _, _ => None
  end.

(** Whether the sort puts [x] before [y]: the comparator's result is not
    positive; NaN counts as +0. *)
Definition precedes (x y : string * Value) : bool :=
  match compareFn x y with
  | Some c => Qle_bool c 0
  | None => true
  end.

(** Array.prototype.sort is stable: [x] goes before the first element it
    does not compare greater than.  (With a value that is not a number
    among them the comparator is not consistent and the standard leaves
    the order to the implementation; this is then one of the orders it
    allows.) *)
Fixpoint sort_insert (x : string * Value) (l : Stats) : Stats :=
  match l with
  | [] => [x]
  | y :: rest =>
      if precedes x y then x :: y :: rest
      else y :: sort_insert x rest
  end.

Definition sort (l : Stats) : Stats := fold_right sort_insert [] l.

(** The objects line 76-80 builds. *)
Record ModuleStat : Type := mkModuleStat {
  moduleId : string;
  total : Value;                   (* the property named duration *)
  moduleName : string
}.

(** modules.find((m) => m.id === moduleId)?.module_title || 'Unknown Module' *)
Definition title_of (ms : list CourseModule) (k : string) : string :=
  match find (fun m => String.eqb (cm_id m) k) ms with
  | Some m => if truthy (module_title m) then module_title m
              else "Unknown Module"%string
  | None => "Unknown Module"%string
  end.

(** getMostStudiedModules, lines 67-81. *)
Definition getMostStudiedModules (st : Store) : list ModuleStat :=
  let moduleStats := moduleStats_of (sessions st) in
  map (fun e => mkModuleStat (fst e) (snd e) (title_of (modules st) (fst e)))
      (sort (Object_entries moduleStats)).

(** *** Vocabulary of the specification *)

(** A session has a topic when its [module_id] passes the test of line 70:
    neither null nor the empty string. *)
Definition topic_of (s : StudySession) : option string := or_null (module_id s).

(** Minutes of the sessions whose [module_id] is [k]. *)
Definition has_module (k : string) (s : StudySession) : bool :=
  match module_id s with
  | Some k' => String.eqb k' k
  | None => false
  end.

Definition minutes_for (k : string) (l : list StudySession) : Q :=
  fold_right Qplus 0 (map duration (filter (has_module k) l)).

(** No session names a member of Object.prototype as its module. *)
Definition plain_ids (l : list StudySession) : Prop :=
  forall s k, In s l -> module_id s = Some k -> inherited k = false.

(** The number a value is, 0 for one that is none. *)
Definition num (v : Value) : Q :=
  match v with
  | Num q => q
  | Text => 0
  end.

(** Every entry holds a number. *)
Definition numeric (o : Stats) : Prop :=
  Forall (fun e => exists q, snd e = Num q) o.

(** The minutes the own property [k] holds. *)
Definition value_of (k : string) (o : Stats) : Q :=
  match own k o with
  | Some v => num v
  | None => 0
  end.

(** Larger totals come first. *)
Definition descending (a b : string * Value) : Prop := num (snd b) <= num (snd a).

(** Both totals are numbers and the first is not the smaller. *)
Definition outranks (a b : ModuleStat) : Prop :=
  match total a, total b with
  | Num x, Num y => y <= x
  | _, _ => False
  end.

(** Whether the total of an entry is the number [v]. *)
Definition has_total (v : Q) (e : ModuleStat) : bool :=
  match total e with
  | Num q => Qeq_bool q v
  | Text => false
  end.

(** The three parts of what a piece of hook code produced. *)
Definition result_of {A} (x : (A + Exn) * Store * list Effect) : A + Exn :=
  fst (fst x).
Definition store_of {A} (x : (A + Exn) * Store * list Effect) : Store :=
  snd (fst x).
Definition trace_of {A} (x : (A + Exn) * Store * list Effect) : list Effect :=
  snd x.

(** The sessions of the specification's example: topicA 30, topicB 10,
    topicA 5 minutes. *)
Definition session_for (topic : string) (minutes : Q) : StudySession :=
  mkStudySession "s"%string "u"%string (Some topic) minutes
                 "2024-01-01"%string None None None.

Definition example_store : Store :=
  {| sessions := [session_for "topicA" 30; session_for "topicB" 10;
                  session_for "topicA" 5];
     modules := [mkCourseModule "topicA" "CS101" "Algorithms"];
     isLoading := false |}.

(** A remote store whose identity lookup and modules query succeed and
    whose sessions query rejects. *)
Definition sessions_query_fails : Supabase :=
  mkSupabase (Resolves (Some (mkUser "u1")))
             (Resolves (mkReply (Some [mkCourseModule "m1" "CS101" "Algorithms"]) None))
             (fun _ => Rejects)
             (fun _ => Rejects).

(** A remote store with user u1 signed in that stores every row it is
    handed and returns it. *)
Definition stored (row : NewSession) : StudySession :=
  mkStudySession "s1"%string (ns_user_id row) (ns_module_id row)
                 (ns_duration row) (ns_date row) (ns_notes row) None
                 (Some (ns_earned_coins row)).

Definition accepting : Supabase :=
  mkSupabase (Resolves (Some (mkUser "u1")))
             (Resolves (mkReply (Some []) None))
             (fun _ => Resolves (mkReply (Some []) None))
             (fun row => Resolves (mkReply (Some (stored row, [])) None)).

(** The sum of a list of numbers. *)
Definition Qsum (l : list Q) : Q := fold_right Qplus 0 l.

(** Whether a session counts for some module. *)
Definition tracked (s : StudySession) : bool :=
  match topic_of s with
  | Some _ => true
  | None => false
  end.

(** The module ids of the sessions, each once, in the order in which the
    sessions first mention them. *)
Definition see (seen : list string) (s : StudySession) : list string :=
  match topic_of s with
  | Some k => if existsb (String.eqb k) seen then seen else seen ++ [k]
  | None => seen
  end.

Definition first_seen (l : list StudySession) : list string :=
  fold_left see l [].

End StudySessions.

(** * Properties of the countdown engine *)

Section TimerFacts.

Import FocusTimer.
Local Open Scope Z_scope.

Lemma TimerStatus_eqb_refl (s : TimerStatus) : TimerStatus_eqb s s = true.
Proof. destruct s; reflexivity. Qed.

Lemma TimerStatus_eqb_eq (a b : TimerStatus) :
  TimerStatus_eqb a b = true <-> a = b.
Proof. destruct a, b; simpl; split; congruence. Qed.

(** The re-render effect only ever touches the remaining time. *)
Lemma sync_timeLeft_frame (a b : Timer) :
  duration (sync_timeLeft a b) = duration b /\
  status (sync_timeLeft a b) = status b /\
  coins (sync_timeLeft a b) = coins b /\
  intervalRef (sync_timeLeft a b) = intervalRef b /\
  scheduled (sync_timeLeft a b) = scheduled b /\
  next_handle (sync_timeLeft a b) = next_handle b.
Proof.
  unfold sync_timeLeft.
  destruct (_ && _)%bool; [repeat split|].
  destruct (status b) eqn:E; simpl; rewrite ?E; repeat split.
Qed.

Lemma sync_timeLeft_not_idle (a b : Timer) :
  status b <> idle -> sync_timeLeft a b = b.
Proof.
  intros H. unfold sync_timeLeft.
  destruct (_ && _)%bool; [reflexivity|].
  destruct (status b); congruence.
Qed.

Lemma sync_timeLeft_same (a b : Timer) :
  duration a = duration b -> status a = status b -> sync_timeLeft a b = b.
Proof.
  intros Hd Hs. unfold sync_timeLeft.
  now rewrite Hd, Hs, Z.eqb_refl, TimerStatus_eqb_refl.
Qed.

Lemma sync_timeLeft_idle (a b : Timer) :
  status b = idle -> timeLeft b = duration b -> sync_timeLeft a b = b.
Proof.
  intros Hs Ht. unfold sync_timeLeft.
  destruct (_ && _)%bool; [reflexivity|].
  rewrite Hs. destruct b; simpl in *; subst; reflexivity.
Qed.

Lemma filter_twice {A} (f : A -> bool) (l : list A) :
  filter f (filter f l) = filter f l.
Proof.
  induction l as [|x l IH]; simpl; [reflexivity|].
  destruct (f x) eqn:E; simpl; [rewrite E, IH|]; auto.
Qed.

(** Clearing the referenced interval of a state with one source leaves
    nothing scheduled. *)
Lemma clear_ref_unschedules (t : Timer) :
  one_source t -> scheduled (clearInterval (intervalRef t) t) = [].
Proof.
  intros [Href Hlen].
  destruct (scheduled t) as [|i [|j l]] eqn:E; simpl in Hlen; try lia.
  - destruct (intervalRef t); simpl; rewrite ?E; reflexivity.
  - rewrite (Href i) by (now left). simpl.
    rewrite E. simpl. rewrite Pos.eqb_refl, ?R. reflexivity.
Qed.

Lemma clear_frame (h : option positive) (t : Timer) :
  duration (clearInterval h t) = duration t /\
  timeLeft (clearInterval h t) = timeLeft t /\
  status (clearInterval h t) = status t /\
  coins (clearInterval h t) = coins t /\
  intervalRef (clearInterval h t) = intervalRef t /\
  next_handle (clearInterval h t) = next_handle t.
Proof. destruct h; repeat split. Qed.

(** What [startTimer] makes of a state with one source, whenever its
    closure saw idle or paused. *)
Lemma startTimer_shape (r : Render) (t : Timer) :
  one_source t ->
  r_status r = idle \/ r_status r = paused ->
  startTimer r t =
    (mkTimer (duration t) (timeLeft t) running (coins t)
             (Some (next_handle t))
             [mkInterval (next_handle t) (r_duration r)]
             (Pos.succ (next_handle t)), []).
Proof.
  intros Hone Hr.
  assert (Hc := clear_ref_unschedules t Hone).
  unfold startTimer.
  assert (E : (let t1 := setStatus running t in
               let t2 := match intervalRef t1 with
                         | Some h => clearInterval (Some h) t1
                         | None => t1
                         end in
               (setInterval r t2, @nil Effect)) =
              (mkTimer (duration t) (timeLeft t) running (coins t)
                       (Some (next_handle t))
                       [mkInterval (next_handle t) (r_duration r)]
                       (Pos.succ (next_handle t)), [])).
  { simpl. destruct (intervalRef t) as [h|] eqn:Eh; simpl in *.
    - unfold setInterval; simpl. now rewrite Hc.
    - unfold setInterval; simpl. now rewrite Hc. }
  destruct Hr as [-> | ->]; exact E.
Qed.

Lemma one_source_nil (t : Timer) : scheduled t = [] -> one_source t.
Proof. intros E; split; rewrite E; simpl; [tauto | lia]. Qed.

Lemma one_source_single (t : Timer) (i : Interval) :
  scheduled t = [i] -> intervalRef t = Some (handle i) -> one_source t.
Proof.
  intros E R; split; rewrite E; simpl; [|lia].
  intros j [<- | []]; exact R.
Qed.

Lemma one_source_cases (t : Timer) :
  one_source t ->
  scheduled t = [] \/
  exists i, scheduled t = [i] /\ intervalRef t = Some (handle i).
Proof.
  intros [Href Hlen].
  destruct (scheduled t) as [|i [|j l]] eqn:E; simpl in Hlen; try lia.
  - now left.
  - right. exists i. split; [reflexivity|]. apply Href. now left.
Qed.

(** With its single interval scheduled, a second is one tick. *)
Lemma second_single (t : Timer) (i : Interval) :
  scheduled t = [i] -> second t = tick i t.
Proof.
  intros E. unfold second. rewrite E. simpl.
  unfold is_scheduled. rewrite E. simpl. rewrite Pos.eqb_refl. simpl.
  destruct (tick i t) as [t1 e1]. now rewrite app_nil_r.
Qed.

Lemma second_none (t : Timer) : scheduled t = [] -> second t = (t, []).
Proof. intros E. unfold second. now rewrite E. Qed.

Lemma tick_one_source (i : Interval) (t : Timer) :
  one_source t -> one_source (fst (tick i t)).
Proof.
  intros H. assert (Hc := clear_ref_unschedules t H).
  unfold tick.
  destruct (timeLeft t <=? 1); [|exact H].
  destruct (timeLeft t <=? 0); simpl;
    apply one_source_nil; simpl; exact Hc.
Qed.

Lemma handler_one_source (o : Op) (r : Render) (t : Timer) :
  one_source t -> one_source (fst (handler o r t)).
Proof.
  intros H. assert (Hc := clear_ref_unschedules t H).
  destruct o; simpl.
  - destruct (r_status r) eqn:E;
      try (unfold startTimer; rewrite E; exact H);
      rewrite (startTimer_shape r t H) by auto;
      (eapply one_source_single; simpl; reflexivity).
  - unfold pauseTimer. destruct (r_status r); simpl; try exact H.
    apply one_source_nil. exact Hc.
  - unfold resumeTimer. destruct (r_status r) eqn:E; try exact H.
    rewrite (startTimer_shape r t H) by auto.
    eapply one_source_single; simpl; reflexivity.
  - apply one_source_nil. exact Hc.
  - apply one_source_nil. exact Hc.
  - unfold updateDuration. destruct (r_status r); simpl; exact H.
  - destruct (one_source_cases t H) as [E | [i [E R]]].
    + now rewrite second_none.
    + rewrite (second_single t i E). now apply tick_one_source.
Qed.

Lemma sync_one_source (a b : Timer) :
  one_source b -> one_source (sync_timeLeft a b).
Proof.
  destruct (sync_timeLeft_frame a b) as (_ & _ & _ & Hr & Hs & _).
  unfold one_source. now rewrite Hr, Hs.
Qed.

Lemma step_one_source (o : Op) (t : Timer) :
  one_source t -> one_source (fst (step o t)).
Proof.
  intros H. unfold step.
  assert (H' := handler_one_source o (render_of t) t H).
  destruct (handler o (render_of t) t) as [t' e]. simpl in *.
  now apply sync_one_source.
Qed.

Lemma reachable_one_source (t : Timer) : reachable t -> one_source t.
Proof.
  induction 1 as [|o t _ IH].
  - apply one_source_nil. reflexivity.
  - now apply step_one_source.
Qed.

(** A tick with more than a second left only decrements. *)
Lemma step_second_decrement (t : Timer) (i : Interval) :
  scheduled t = [i] -> 1 < timeLeft t ->
  step Second t = (setTimeLeft (timeLeft t - 1) t, []).
Proof.
  intros E Hlt. unfold step. simpl handler.
  rewrite (second_single t i E). unfold tick.
  destruct (Z.leb_spec (timeLeft t) 1) as [Hle|_]; [lia|].
  rewrite sync_timeLeft_same; reflexivity.
Qed.

(** The tick that finds one second left completes the session. *)
Lemma step_second_complete (t : Timer) (i : Interval) :
  scheduled t = [i] -> intervalRef t = Some (handle i) -> timeLeft t = 1 ->
  step Second t =
    (mkTimer (duration t) 0 completed
             (coins t + earnedCoins (captured_duration i))
             (intervalRef t) [] (next_handle t),
     [LogTimerSession (inject_Z (captured_duration i) / 60)%Q;
      ToastCompleted (earnedCoins (captured_duration i))]).
Proof.
  intros E R H1. unfold step. simpl handler.
  rewrite (second_single t i E). unfold tick. rewrite H1. simpl.
  rewrite sync_timeLeft_not_idle by (simpl; discriminate).
  rewrite R. unfold setTimeLeft, setCoins, setStatus, clearInterval. simpl.
  rewrite E. simpl. rewrite Pos.eqb_refl, ?R. reflexivity.
Qed.

(** The tick that finds no time left completes without a reward. *)
Lemma step_second_empty (t : Timer) (i : Interval) :
  scheduled t = [i] -> intervalRef t = Some (handle i) -> timeLeft t <= 0 ->
  step Second t =
    (mkTimer (duration t) 0 completed (coins t)
             (intervalRef t) [] (next_handle t), []).
Proof.
  intros E R H0. unfold step. simpl handler.
  rewrite (second_single t i E). unfold tick.
  destruct (Z.leb_spec (timeLeft t) 1) as [_|Hgt]; [|lia].
  destruct (Z.leb_spec (timeLeft t) 0) as [_|Hgt]; [|lia].
  rewrite sync_timeLeft_not_idle by (simpl; discriminate).
  rewrite R. unfold setTimeLeft, setStatus, clearInterval. simpl.
  rewrite E. simpl. rewrite Pos.eqb_refl, ?R. reflexivity.
Qed.

Lemma step_second_idle (t : Timer) :
  scheduled t = [] -> step Second t = (t, []).
Proof.
  intros E. unfold step. simpl handler. rewrite (second_none t E).
  rewrite sync_timeLeft_same; reflexivity.
Qed.

(** [n + 1] seconds count a running engine with [n + 1] seconds left down
    to completion. *)
Lemma countdown (n : nat) : forall (t : Timer) (i : Interval),
  scheduled t = [i] -> intervalRef t = Some (handle i) ->
  timeLeft t = Z.of_nat (S n) ->
  run (seconds (S n)) t =
    (mkTimer (duration t) 0 completed
             (coins t + earnedCoins (captured_duration i))
             (intervalRef t) [] (next_handle t),
     [LogTimerSession (inject_Z (captured_duration i) / 60)%Q;
      ToastCompleted (earnedCoins (captured_duration i))]).
Proof.
  induction n as [|n IH]; intros t i E R Hn.
  - simpl. now rewrite (step_second_complete t i E R Hn).
  - change (seconds (S (S n))) with (Second :: seconds (S n)).
    cbn [run].
    rewrite (step_second_decrement t i E) by lia.
    rewrite (IH (setTimeLeft (timeLeft t - 1) t) i E R) by (simpl; lia).
    reflexivity.
Qed.

Lemma step_start_shape (t : Timer) :
  one_source t -> status t = idle \/ status t = paused ->
  step Start t =
    (mkTimer (duration t) (timeLeft t) running (coins t)
             (Some (next_handle t))
             [mkInterval (next_handle t) (duration t)]
             (Pos.succ (next_handle t)), []).
Proof.
  intros H Hs. unfold step. simpl handler.
  rewrite (startTimer_shape (render_of t) t H Hs).
  now rewrite sync_timeLeft_not_idle by (simpl; discriminate).
Qed.

Lemma step_running_source (o : Op) (t : Timer) :
  one_source t -> running_source t -> running_source (fst (step o t)).
Proof.
  intros H1 H2.
  assert (Hc := clear_ref_unschedules t H1).
  assert (Hnil : forall u, scheduled u = [] -> running_source u).
  { intros u E j Hj. rewrite E in Hj. destruct Hj. }
  assert (Hsync : forall a b, running_source b -> running_source (sync_timeLeft a b)).
  { intros a b Hb.
    destruct (sync_timeLeft_frame a b) as (Hd & Hst & _ & _ & Hs & _).
    unfold running_source. now rewrite Hd, Hst, Hs. }
  assert (Hstart : status t = idle \/ status t = paused ->
                   running_source (fst (step Start t))).
  { intros Hs. rewrite (step_start_shape t H1 Hs). simpl.
    intros j [<- | []]. simpl. auto. }
  destruct o.
  - destruct (status t) eqn:E; auto;
      unfold step, handler, startTimer, render_of; simpl; rewrite E; simpl;
      apply Hsync; exact H2.
  - unfold step, handler, pauseTimer, render_of; simpl.
    destruct (status t) eqn:E; simpl; apply Hsync; try exact H2.
    apply Hnil. exact Hc.
  - destruct (status t) eqn:E;
      try (unfold step, handler, resumeTimer, render_of; simpl; rewrite E;
           simpl; apply Hsync; exact H2).
    replace (step Resume t) with (step Start t); auto.
    unfold step, handler, resumeTimer, render_of. simpl. now rewrite E.
  - unfold step. simpl. apply Hsync, Hnil. exact Hc.
  - unfold step. simpl. apply Hsync, Hnil. exact Hc.
  - unfold step, handler, updateDuration, render_of; simpl.
    destruct (status t) eqn:E; simpl; apply Hsync; try exact H2.
    intros j Hj. simpl in Hj. destruct (H2 j Hj) as [Hr _]. congruence.
  - destruct (one_source_cases t H1) as [E | [i [E R]]].
    + now rewrite (step_second_idle t E).
    + destruct (Z.leb_spec (timeLeft t) 0) as [H0|H0].
      * rewrite (step_second_empty t i E R H0). now apply Hnil.
      * destruct (Z.eq_dec (timeLeft t) 1) as [He|Hne].
        -- rewrite (step_second_complete t i E R He). now apply Hnil.
        -- rewrite (step_second_decrement t i E) by lia. exact H2.
Qed.

Lemma reachable_running_source (t : Timer) : reachable t -> running_source t.
Proof.
  induction 1 as [|o t Hr IH].
  - intros j [].
  - apply step_running_source; [now apply reachable_one_source | exact IH].
Qed.

(** While nothing is scheduled the engine is not running, when reached
    from mount. *)
Lemma reachable_scheduled (t : Timer) (i : Interval) :
  reachable t -> scheduled t = [i] ->
  intervalRef t = Some (handle i) /\ status t = running /\
  captured_duration i = duration t.
Proof.
  intros Hr E.
  destruct (reachable_one_source t Hr) as [Href _].
  destruct (reachable_running_source t Hr i) as [Hs Hd];
    [rewrite E; now left|].
  split; [apply Href; rewrite E; now left | auto].
Qed.

End TimerFacts.

Section TimerClaims.

Import FocusTimer.
Local Open Scope Z_scope.

Lemma earnedCoins_positive (d : Z) : 1 <= FocusTimer.earnedCoins d.
Proof. unfold FocusTimer.earnedCoins. lia. Qed.

Lemma run_cons (o : Op) (ops : list Op) (t : Timer) :
  fst (run (o :: ops) t) = fst (run ops (fst (step o t))).
Proof.
  simpl. destruct (step o t) as [t1 e1]. simpl.
  now destruct (run ops t1).
Qed.

Lemma run_reachable (ops : list Op) : forall t,
  reachable t -> reachable (fst (run ops t)).
Proof.
  induction ops as [|o ops IH]; intros t H; [exact H|].
  rewrite run_cons. apply IH. now constructor.
Qed.

(** Handlers other than the tick leave the coins alone; the tick adds the
    reward exactly when it finds one second left. *)
Lemma step_coins (o : Op) (t : Timer) :
  one_source t -> running_source t ->
  coins (fst (step o t)) = coins t \/
  (o = Second /\ status t = running /\ timeLeft t = 1 /\
   status (fst (step o t)) = completed /\
   coins (fst (step o t)) = coins t + FocusTimer.earnedCoins (duration t)).
Proof.
  intros H1 H2.
  assert (Hsync : coins (fst (step o t)) =
                  coins (fst (handler o (render_of t) t))).
  { unfold step. destruct (handler o (render_of t) t) as [t' e]. simpl.
    apply sync_timeLeft_frame. }
  destruct o;
    try (left; rewrite Hsync; unfold handler, startTimer, pauseTimer,
           resumeTimer, startTimer, resetTimer, stopTimer, updateDuration,
           render_of; simpl;
         destruct (status t); simpl; destruct (intervalRef t); reflexivity).
  destruct (one_source_cases t H1) as [E | [i [E R]]].
  - left. now rewrite (step_second_idle t E).
  - destruct (H2 i) as [Hrun Hcap]; [rewrite E; now left|].
    destruct (Z.leb_spec (timeLeft t) 0) as [H0|H0].
    + left. now rewrite (step_second_empty t i E R H0).
    + destruct (Z.eq_dec (timeLeft t) 1) as [He|Hne].
      * right. rewrite (step_second_complete t i E R He). simpl.
        rewrite Hcap. auto.
      * left. now rewrite (step_second_decrement t i E) by lia.
Qed.

(** What [stop] makes of any state; a second [stop] finds nothing left to
    do, and [reset] is [stop]. *)
Lemma step_stop_shape (t : Timer) :
  fst (step Stop t) =
    setTimeLeft (duration t)
      (setStatus idle (clearInterval (intervalRef t) t)) /\
  fst (step Stop (fst (step Stop t))) = fst (step Stop t) /\
  step Reset t = step Stop t.
Proof.
  assert (E : fst (step Stop t) =
              setTimeLeft (duration t)
                (setStatus idle (clearInterval (intervalRef t) t))).
  { unfold step. simpl.
    apply sync_timeLeft_idle; destruct (intervalRef t); reflexivity. }
  split; [exact E|]. split; [|reflexivity].
  rewrite E. unfold step. simpl. rewrite sync_timeLeft_same.
  - destruct (intervalRef t) as [k|] eqn:Ek; simpl; rewrite Ek; simpl;
      [|reflexivity].
    unfold setTimeLeft, setStatus; simpl. now rewrite filter_twice.
  - destruct (intervalRef t) eqn:Ek; simpl; rewrite ?Ek; reflexivity.
  - destruct (intervalRef t) eqn:Ek; simpl; rewrite ?Ek; reflexivity.
Qed.

(** C2: for every duration D > 0 seconds, starting the engine with D
    seconds configured and remaining and letting D seconds pass ends with
    no time left and status completed, and the session-logging call was
    made exactly once, with D / 60 minutes. *)
Theorem full_countdown_logs_once :
  forall (D : Z) (t : Timer),
    0 < D -> one_source t ->
    status t = idle \/ status t = paused ->
    duration t = D -> timeLeft t = D ->
    let result := run (Start :: seconds (Z.to_nat D)) t in
    timeLeft (fst result) = 0 /\
    status (fst result) = completed /\
    log_calls (snd result) = [LogTimerSession (inject_Z D / 60)%Q].
Proof.
  intros D t HD H1 Hs Hd Ht result. subst result.
  cbn [run]. rewrite (step_start_shape t H1 Hs).
  destruct (Z.to_nat D) as [|n] eqn:En; [lia|].
  erewrite countdown; simpl; try reflexivity.
  - rewrite Hd. auto.
  - lia.
Qed.

Lemma full_countdown_logs_once_witness :
  let t := mkTimer 90 90 idle 0 None [] 1 in
  let result := run (Start :: seconds 90) t in
  timeLeft (fst result) = 0 /\
  status (fst result) = completed /\
  log_calls (snd result) = [LogTimerSession (inject_Z 90 / 60)%Q].
Proof.
  intros t.
  apply (full_countdown_logs_once 90 t).
  - lia.
  - split; simpl; [intros i [] | lia].
  - left; reflexivity.
  - reflexivity.
  - reflexivity.
Defined.

(** C3: in every state of the engine, [start] called with status idle or
    paused yields status running with exactly one scheduled tick source,
    the one the engine holds; and two calls of [start] in a row, whatever
    their closures saw, never leave two tick sources scheduled: a second
    call made through the same closure cancels the interval of the first
    before it schedules its own. *)
Theorem start_schedules_one_tick_source :
  forall (t : Timer),
    reachable t ->
    (status t = idle \/ status t = paused ->
     status (fst (step Start t)) = running /\
     exists i, scheduled (fst (step Start t)) = [i] /\
               intervalRef (fst (step Start t)) = Some (handle i)) /\
    (forall r1 r2,
       (List.length (scheduled (fst (startTimer r2 (fst (startTimer r1 t))))) <= 1)%nat) /\
    (forall r, r_status r = idle \/ r_status r = paused ->
       let first := fst (startTimer r t) in
       let again := fst (startTimer r first) in
       (exists i, scheduled first = [i] /\ handle i = next_handle t) /\
       (exists j, scheduled again = [j] /\ intervalRef again = Some (handle j)) /\
       is_scheduled (next_handle t) again = false) /\
    (List.length (scheduled (fst (run [Start; Start] t))) <= 1)%nat.
Proof.
  intros t Hr. assert (H1 := reachable_one_source t Hr).
  repeat split.
  - rewrite (step_start_shape t H1 H). reflexivity.
  - rewrite (step_start_shape t H1 H). simpl. eexists; split; reflexivity.
  - intros r1 r2.
    apply (handler_one_source Start r2), (handler_one_source Start r1), H1.
  - rewrite (startTimer_shape r t H1 H). simpl. eexists; split; reflexivity.
  - rewrite (startTimer_shape r t H1 H). simpl.
    rewrite startTimer_shape; simpl; auto.
    + eexists; split; reflexivity.
    + eapply one_source_single; reflexivity.
  - rewrite (startTimer_shape r t H1 H). simpl.
    rewrite startTimer_shape; simpl; auto.
    + unfold is_scheduled. simpl.
      destruct (Pos.eqb_spec (Pos.succ (next_handle t)) (next_handle t)) as [e|_];
        [|reflexivity].
      exfalso. symmetry in e. revert e. apply Pos.succ_discr.
    + eapply one_source_single; reflexivity.
  - apply (run_reachable [Start; Start]) in Hr.
    apply reachable_one_source in Hr. apply Hr.
Qed.

Lemma start_schedules_one_tick_source_witness :
  status (fst (step Start initial)) = running /\
  (exists i, scheduled (fst (step Start initial)) = [i] /\
             intervalRef (fst (step Start initial)) = Some (handle i)) /\
  is_scheduled 1
    (fst (startTimer (render_of initial)
            (fst (startTimer (render_of initial) initial)))) = false.
Proof.
  destruct (start_schedules_one_tick_source initial reach_initial)
    as (Hstart & _ & Htwice & _).
  destruct (Hstart (or_introl eq_refl)) as [Hs Hi].
  destruct (Htwice (render_of initial) (or_introl eq_refl)) as (_ & _ & Hc).
  repeat split; assumption.
Defined.

(** C6: from any status, [stop] yields status idle and a remaining time
    equal to the full configured duration; stopping twice leaves the same
    timer state as stopping once; and [reset] does exactly what [stop]
    does. *)
Theorem stop_resets_and_is_idempotent :
  forall (t : Timer),
    let stopped := fst (step Stop t) in
    status stopped = idle /\
    duration stopped = duration t /\
    timeLeft stopped = duration stopped /\
    fst (step Stop stopped) = stopped /\
    step Reset t = step Stop t.
Proof.
  intros t stopped. unfold stopped.
  destruct (step_stop_shape t) as (E & Eagain & Ereset).
  rewrite Eagain, Ereset, E. simpl.
  repeat split; destruct (intervalRef t); reflexivity.
Qed.

(** C7: for every number of minutes m, [configure m] called while the
    status is not idle changes nothing, duration and remaining time
    included, and emits nothing; called while idle it sets the duration to
    m * 60 seconds and the remaining time to the same value. *)
Theorem configure_only_when_idle :
  forall (m : Z) (t : Timer),
    (status t <> idle -> step (Configure m) t = (t, [])) /\
    (status t = idle ->
       duration (fst (step (Configure m) t)) = m * 60 /\
       timeLeft (fst (step (Configure m) t)) = m * 60 /\
       status (fst (step (Configure m) t)) = idle /\
       snd (step (Configure m) t) = []).
Proof.
  intros m t. split; intros H.
  - unfold step, handler, updateDuration, render_of. simpl.
    destruct (status t) eqn:E; try congruence;
      rewrite sync_timeLeft_same; reflexivity.
  - unfold step, handler, updateDuration, render_of. simpl.
    rewrite H. simpl.
    rewrite sync_timeLeft_idle; simpl; auto.
Qed.

Lemma configure_only_when_idle_witness :
  step (Configure 5) (fst (step Start initial)) = (fst (step Start initial), []) /\
  duration (fst (step (Configure 5) initial)) = 300 /\
  timeLeft (fst (step (Configure 5) initial)) = 300.
Proof.
  split.
  - apply (proj1 (configure_only_when_idle 5 (fst (step Start initial)))).
    simpl. discriminate.
  - destruct (proj2 (configure_only_when_idle 5 initial) eq_refl)
      as (Hd & Ht & _).
    split; [exact Hd | exact Ht].
Defined.

(** C9: when the engine is started while no time is left, the first tick
    sets the status to completed and keeps the remaining time at 0, but
    awards no coins, logs no session and announces no completion. *)
Theorem zero_time_completion_is_silent :
  forall (t : Timer),
    reachable t ->
    status t = idle \/ status t = paused ->
    timeLeft t = 0 ->
    let result := run [Start; Second] t in
    status (fst result) = completed /\
    timeLeft (fst result) = 0 /\
    coins (fst result) = coins t /\
    snd result = [].
Proof.
  intros t Hr Hs H0 result. subst result.
  assert (H1 := reachable_one_source t Hr).
  cbn [run]. rewrite (step_start_shape t H1 Hs).
  erewrite step_second_empty; simpl; try reflexivity.
  - auto.
  - lia.
Qed.

Lemma zero_time_completion_is_silent_witness :
  let result := run [Start; Second] (fst (step (Configure 0) initial)) in
  status (fst result) = completed /\
  timeLeft (fst result) = 0 /\
  coins (fst result) = 0 /\
  snd result = [].
Proof.
  apply (zero_time_completion_is_silent (fst (step (Configure 0) initial))).
  - apply reach_step, reach_initial.
  - left; reflexivity.
  - reflexivity.
Defined.

(** C10: the coin total never decreases, over any sequence of engine
    events; a single event changes it only when it is the tick that
    completes a session, which adds the reward; [stop] and [reset] reset
    the status and the remaining time and leave the coins as they are. *)
Theorem coins_never_decrease :
  forall (t : Timer),
    reachable t ->
    (forall ops, coins t <= coins (fst (run ops t))) /\
    (forall o, coins (fst (step o t)) <> coins t ->
       o = Second /\ status (fst (step o t)) = completed /\
       coins (fst (step o t)) = coins t + FocusTimer.earnedCoins (duration t)) /\
    (forall o, o = Stop \/ o = Reset ->
       coins (fst (step o t)) = coins t /\
       status (fst (step o t)) = idle /\
       timeLeft (fst (step o t)) = duration t).
Proof.
  intros t Hr. split; [|split].
  - intros ops. revert t Hr.
    induction ops as [|o ops IH]; intros t Hr; [simpl; lia|].
    rewrite run_cons.
    specialize (IH (fst (step o t)) (reach_step o t Hr)).
    destruct (step_coins o t (reachable_one_source t Hr)
                (reachable_running_source t Hr)) as [E | (_ & _ & _ & _ & E)].
    + lia.
    + pose proof (earnedCoins_positive (duration t)). lia.
  - intros o Hne.
    destruct (step_coins o t (reachable_one_source t Hr)
                (reachable_running_source t Hr))
      as [E | (Ho & _ & _ & Hc & E)]; [congruence | auto].
  - intros o Ho.
    destruct (step_stop_shape t) as (E & _ & Ereset).
    assert (Eo : step o t = step Stop t) by (destruct Ho as [-> | ->]; auto).
    rewrite Eo, E.
    repeat split; destruct (intervalRef t); reflexivity.
Qed.

Lemma coins_never_decrease_witness :
  let t := fst (run (Configure 1 :: Start :: seconds 60) initial) in
  coins t = 6 /\
  6 <= coins (fst (run [Stop; Start; Pause; Reset] t)) /\
  coins (fst (step Stop t)) = 6 /\
  status (fst (step Stop t)) = idle.
Proof.
  intros t.
  assert (Hr : reachable t).
  { apply (run_reachable (Configure 1 :: Start :: seconds 60)), reach_initial. }
  destruct (coins_never_decrease t Hr) as (Hmono & _ & Hstop).
  destruct (Hstop Stop (or_introl eq_refl)) as (Hc & Hs & _).
  assert (E : coins t = 6) by (vm_compute; reflexivity).
  split; [exact E|]. split; [rewrite <- E; apply Hmono|].
  split; [rewrite Hc; exact E | exact Hs].
Defined.

End TimerClaims.

(** * Properties of the record store *)

Section StoreFacts.

Import StudySessions.
Local Open Scope Q_scope.

Lemma own_set_same (k : string) (v : Value) (o : Stats) :
  own k (set_own k v o) = Some v.
Proof.
  induction o as [|[k' v'] o IH]; simpl.
  - now rewrite String.eqb_refl.
  - destruct (String.eqb k' k) eqn:E; simpl; rewrite E; auto.
Qed.

Lemma own_set_other (k k' : string) (v : Value) (o : Stats) :
  k' <> k -> own k' (set_own k v o) = own k' o.
Proof.
  intros Hne. induction o as [|[k0 v0] o IH]; simpl.
  - destruct (String.eqb_spec k k'); congruence.
  - destruct (String.eqb_spec k0 k) as [->|Hk]; simpl.
    + destruct (String.eqb_spec k k'); congruence.
    + now rewrite IH.
Qed.

Lemma keys_set (k k' : string) (v : Value) (o : Stats) :
  In k' (map fst (set_own k v o)) <-> k' = k \/ In k' (map fst o).
Proof.
  induction o as [|[k0 v0] o IH]; simpl.
  - intuition auto.
  - destruct (String.eqb_spec k0 k) as [->|Hk]; simpl.
    + intuition auto.
    + rewrite IH. intuition auto.
Qed.

Lemma NoDup_set (k : string) (v : Value) (o : Stats) :
  NoDup (map fst o) -> NoDup (map fst (set_own k v o)).
Proof.
  induction o as [|[k0 v0] o IH]; simpl; intros H.
  - constructor; [intros [] | constructor].
  - inversion H as [|x l Hin Hnd]; subst.
    destruct (String.eqb_spec k0 k) as [->|Hk]; simpl.
    + now constructor.
    + constructor; [|now apply IH].
      rewrite keys_set. intros [-> | Hin']; auto.
Qed.

Lemma NoDup_assign (k : string) (v : Value) (o : Stats) :
  NoDup (map fst o) -> NoDup (map fst (assign k v o)).
Proof.
  unfold assign. destruct (String.eqb k "__proto__"); [auto | apply NoDup_set].
Qed.

Lemma own_In (k : string) (v : Value) (o : Stats) :
  NoDup (map fst o) -> In (k, v) o -> own k o = Some v.
Proof.
  induction o as [|[k0 v0] o IH]; simpl; intros Hnd Hin; [contradiction|].
  inversion Hnd as [|x l Hnot Hnd']; subst.
  destruct Hin as [E | Hin].
  - inversion E; subst. now rewrite String.eqb_refl.
  - destruct (String.eqb_spec k0 k) as [->|Hk]; [|now apply IH].
    exfalso. apply Hnot. change k with (fst (k, v)). now apply in_map.
Qed.

Lemma numeric_set (k : string) (q : Q) (o : Stats) :
  numeric o -> numeric (set_own k (Num q) o).
Proof.
  unfold numeric. induction 1 as [|[k0 v0] o Hx Ho IH]; simpl.
  - repeat constructor. simpl. eauto.
  - destruct (String.eqb k0 k); constructor; simpl; eauto.
Qed.

Lemma numeric_own (k : string) (o : Stats) :
  numeric o -> own k o = None \/ exists q, own k o = Some (Num q).
Proof.
  unfold numeric. induction 1 as [|[k0 v0] o [q Hq] Ho IH]; simpl; [now left|].
  destruct (String.eqb k0 k); [|exact IH].
  right. exists q. simpl in Hq. now rewrite Hq.
Qed.

(** A topic is never the empty string. *)
Lemma topic_of_spec (s : StudySession) (k : string) :
  topic_of s = Some k <-> module_id s = Some k /\ k <> EmptyString.
Proof.
  unfold topic_of, or_null, truthy.
  destruct (module_id s) as [k'|]; [|split; [discriminate | intros [[=] _]]].
  destruct (String.eqb_spec k' EmptyString) as [->|Hne]; simpl; split.
  - discriminate.
  - intros [[= <-] H]. congruence.
  - intros [= ->]. auto.
  - now intros [[= ->] _].
Qed.

Lemma inherited_proto : inherited "__proto__" = true.
Proof. reflexivity. Qed.

(** Adding a session of a topic that no member of Object.prototype is
    named after, to an object of numbers: the topic's entry becomes the
    number it held, or 0, plus the session's duration. *)
Lemma add_session_topic (o : Stats) (s : StudySession) (k : string) :
  numeric o -> inherited k = false -> topic_of s = Some k ->
  exists q, add_session o s = set_own k (Num q) o /\
            q == value_of k o + duration s.
Proof.
  intros Hnum Hk Ht.
  assert (Hproto : String.eqb k "__proto__" = false).
  { destruct (String.eqb_spec k "__proto__") as [->|]; [|reflexivity].
    rewrite inherited_proto in Hk. discriminate. }
  unfold topic_of, or_null in Ht. unfold add_session.
  destruct (module_id s) as [k'|]; [|discriminate].
  destruct (truthy k'); [|discriminate].
  injection Ht as ->.
  unfold assign, lookup, value_of. rewrite Hproto, Hk.
  destruct (numeric_own k o Hnum) as [-> | [v ->]]; simpl.
  - eexists. split; [reflexivity|]. ring.
  - destruct (Qeq_bool v 0) eqn:E; simpl; eexists; (split; [reflexivity|]).
    + apply Qeq_bool_iff in E. rewrite E. ring.
    + ring.
Qed.

Lemma add_session_no_topic (o : Stats) (s : StudySession) :
  topic_of s = None -> add_session o s = o.
Proof.
  unfold topic_of, or_null, add_session.
  destruct (module_id s) as [k'|]; [|reflexivity].
  destruct (truthy k'); [discriminate | reflexivity].
Qed.

Lemma plain_ids_cons (s : StudySession) (l : list StudySession) :
  plain_ids (s :: l) ->
  (forall k, topic_of s = Some k -> inherited k = false) /\ plain_ids l.
Proof.
  intros H. split.
  - intros k Ht. apply topic_of_spec in Ht. destruct Ht as [Hm _].
    apply (H s k); [now left | exact Hm].
  - intros s' k Hin. apply H. now right.
Qed.

Lemma stats_numeric (l : list StudySession) : forall (o : Stats),
  plain_ids l -> numeric o -> numeric (fold_left add_session l o).
Proof.
  induction l as [|s l IH]; intros o Hp Hn; simpl; [exact Hn|].
  apply plain_ids_cons in Hp. destruct Hp as [Hs Hl].
  apply IH; [exact Hl|].
  destruct (topic_of s) as [k|] eqn:E.
  - destruct (add_session_topic o s k Hn (Hs k eq_refl) E) as (q & -> & _).
    now apply numeric_set.
  - now rewrite (add_session_no_topic o s E).
Qed.

Lemma stats_keys (l : list StudySession) : forall (o : Stats) (k : string),
  plain_ids l -> numeric o ->
  (In k (map fst (fold_left add_session l o)) <->
   In k (map fst o) \/ exists s, In s l /\ topic_of s = Some k).
Proof.
  induction l as [|s l IH]; intros o k Hp Hn; simpl.
  - split; [auto | intros [H | (s & [] & _)]; exact H].
  - apply plain_ids_cons in Hp. destruct Hp as [Hs Hl].
    destruct (topic_of s) as [k'|] eqn:E.
    + destruct (add_session_topic o s k' Hn (Hs k' eq_refl) E) as (q & Eq & _).
      rewrite Eq, IH, keys_set by (auto using numeric_set). split.
      * intros [[-> | H] | (s' & Hin & Hs')]; eauto.
      * intros [H | (s' & [<- | Hin] & Hs')]; eauto.
        left. left. congruence.
    + rewrite (add_session_no_topic o s E), IH by auto. split.
      * intros [H | (s' & Hin & Hs')]; eauto.
      * intros [H | (s' & [<- | Hin] & Hs')]; eauto. congruence.
Qed.

Lemma stats_NoDup (l : list StudySession) : forall (o : Stats),
  NoDup (map fst o) -> NoDup (map fst (fold_left add_session l o)).
Proof.
  induction l as [|s l IH]; intros o H; simpl; [exact H|].
  apply IH. unfold add_session.
  destruct (module_id s) as [k|]; [|exact H].
  destruct (truthy k); [now apply NoDup_assign | exact H].
Qed.

Lemma minutes_for_cons (k : string) (s : StudySession) (l : list StudySession) :
  k <> EmptyString ->
  minutes_for k (s :: l) ==
  (match topic_of s with
   | Some k' => if String.eqb k' k then duration s else 0
   | None => 0
   end) + minutes_for k l.
Proof.
  intros Hk. unfold minutes_for, has_module, topic_of, or_null, truthy. simpl.
  destruct (module_id s) as [k'|]; [|simpl; ring].
  destruct (String.eqb_spec k' EmptyString) as [->|Hne]; simpl.
  - destruct k; [congruence | simpl; ring].
  - destruct (String.eqb k' k); simpl; ring.
Qed.

(** The entry of a topic holds the minutes of its sessions. *)
Lemma stats_value (l : list StudySession) : forall (o : Stats) (k : string),
  plain_ids l -> numeric o -> k <> EmptyString ->
  value_of k (fold_left add_session l o) == value_of k o + minutes_for k l.
Proof.
  induction l as [|s l IH]; intros o k Hp Hn Hk.
  - simpl. unfold minutes_for. simpl. ring.
  - apply plain_ids_cons in Hp. destruct Hp as [Hs Hl].
    simpl fold_left. rewrite minutes_for_cons by exact Hk.
    destruct (topic_of s) as [k'|] eqn:E.
    + destruct (add_session_topic o s k' Hn (Hs k' eq_refl) E) as (q & Eq & Hq).
      rewrite Eq, IH by (auto using numeric_set).
      destruct (String.eqb_spec k' k) as [->|Hne].
      * unfold value_of at 1. rewrite own_set_same. simpl. rewrite Hq. ring.
      * unfold value_of at 1. rewrite own_set_other by congruence.
        fold (value_of k o). ring.
    + rewrite (add_session_no_topic o s E), IH by auto. ring.
Qed.

Lemma insert_index_perm (e : string * Value) (l : Stats) :
  Permutation (insert_index e l) (e :: l).
Proof.
  induction l as [|y l IH]; simpl; [reflexivity|].
  destruct (index_of e <=? index_of y)%N; [reflexivity|].
  rewrite IH. apply perm_swap.
Qed.

Lemma Object_entries_perm (o : Stats) : Permutation (Object_entries o) o.
Proof.
  unfold Object_entries.
  induction o as [|e o IH]; simpl; [reflexivity|].
  destruct (is_index e); simpl.
  - rewrite insert_index_perm. simpl. now constructor.
  - rewrite <- Permutation_middle. now constructor.
Qed.

Lemma sort_insert_perm (x : string * Value) (l : Stats) :
  Permutation (sort_insert x l) (x :: l).
Proof.
  induction l as [|y l IH]; simpl; [reflexivity|].
  destruct (precedes x y); [reflexivity|].
  rewrite IH. apply perm_swap.
Qed.

Lemma sort_perm (l : Stats) : Permutation (sort l) l.
Proof.
  induction l as [|x l IH]; simpl; [reflexivity|].
  rewrite sort_insert_perm. now constructor.
Qed.

Lemma numeric_perm (a b : Stats) : Permutation a b -> numeric a -> numeric b.
Proof. intros Hp. unfold numeric. now apply Permutation_Forall. Qed.

(** Between two numbers the sort's test is the order of the totals. *)
Lemma precedes_num (x y : string * Value) :
  (exists q, snd x = Num q) -> (exists q, snd y = Num q) ->
  (precedes x y = true -> descending x y) /\
  (precedes x y = false -> descending y x).
Proof.
  intros [a Ha] [b Hb]. unfold precedes, compareFn, descending.
  rewrite Ha, Hb. simpl. split; intros H.
  - apply Qle_bool_iff in H. lra.
  - apply Qnot_lt_le. intros Hlt.
    assert (Hle : Qle_bool (b - a) 0 = true) by (apply Qle_bool_iff; lra).
    congruence.
Qed.

Lemma sort_insert_sorted (x : string * Value) (l : Stats) :
  numeric (x :: l) ->
  StronglySorted descending l -> StronglySorted descending (sort_insert x l).
Proof.
  intros Hn Hs. inversion Hn as [|x' l' Hx Hl]; subst. clear Hn.
  induction Hs as [|y l Hs IH Hall]; simpl.
  - constructor; constructor.
  - inversion Hl as [|y' l' Hy Hl']; subst.
    destruct (precedes_num x y Hx Hy) as [Hbefore Hafter].
    destruct (precedes x y).
    + specialize (Hbefore eq_refl).
      constructor; [now constructor|].
      constructor; [exact Hbefore|].
      eapply Forall_impl; [|exact Hall].
      intros z Hz. unfold descending in *. lra.
    + specialize (Hafter eq_refl).
      constructor; [now apply IH|].
      apply Forall_forall. intros z Hz.
      apply (Permutation_in _ (sort_insert_perm x l)) in Hz.
      destruct Hz as [<- | Hz]; [exact Hafter|].
      rewrite Forall_forall in Hall. now apply Hall.
Qed.

Lemma sort_sorted (l : Stats) :
  numeric l -> StronglySorted descending (sort l).
Proof.
  induction l as [|x l IH]; intros Hn; simpl; [constructor|].
  inversion Hn as [|x' l' Hx Hl]; subst.
  apply sort_insert_sorted; [|now apply IH].
  constructor; [exact Hx|].
  apply (numeric_perm l); [symmetry; apply sort_perm | exact Hl].
Qed.

End StoreFacts.

Section StoreClaims.

Import StudySessions.
Local Open Scope Q_scope.

(** The entries [getMostStudiedModules] ranks are those of [moduleStats],
    in another order. *)
Lemma ranked_entries (l : list StudySession) :
  Permutation (sort (Object_entries (moduleStats_of l))) (moduleStats_of l).
Proof. now rewrite sort_perm, Object_entries_perm. Qed.

Lemma ranking_In (st : Store) (e : ModuleStat) :
  In e (getMostStudiedModules st) ->
  In (moduleId e, total e) (moduleStats_of (sessions st)) /\
  moduleName e = title_of (modules st) (moduleId e).
Proof.
  unfold getMostStudiedModules. rewrite in_map_iff.
  intros ([k v] & <- & Hin). simpl. split; [|reflexivity].
  eapply Permutation_in; [apply ranked_entries | exact Hin].
Qed.

Lemma ranking_keys (st : Store) :
  Permutation (map moduleId (getMostStudiedModules st))
              (map fst (moduleStats_of (sessions st))).
Proof.
  unfold getMostStudiedModules. rewrite map_map. simpl.
  apply Permutation_map, ranked_entries.
Qed.

Lemma ranking_numeric (st : Store) :
  plain_ids (sessions st) ->
  numeric (sort (Object_entries (moduleStats_of (sessions st)))).
Proof.
  intros Hp.
  apply (numeric_perm (moduleStats_of (sessions st)));
    [symmetry; apply ranked_entries|].
  apply stats_numeric; [exact Hp | constructor].
Qed.

Lemma ranking_key_nonempty (st : Store) (e : ModuleStat) :
  plain_ids (sessions st) ->
  In e (getMostStudiedModules st) -> moduleId e <> EmptyString.
Proof.
  intros Hp Hin.
  assert (Hk : In (moduleId e) (map fst (moduleStats_of (sessions st)))).
  { eapply Permutation_in; [apply ranking_keys | now apply in_map]. }
  apply stats_keys in Hk; [|exact Hp | constructor].
  destruct Hk as [[] | (s & _ & Hs)].
  now apply topic_of_spec in Hs.
Qed.

(** The total of a ranked module is a number, the minutes of its
    sessions. *)
Lemma ranking_total (st : Store) (e : ModuleStat) :
  plain_ids (sessions st) ->
  In e (getMostStudiedModules st) ->
  exists q, total e = Num q /\ q == minutes_for (moduleId e) (sessions st).
Proof.
  intros Hp Hin.
  assert (Hnd : NoDup (map fst (moduleStats_of (sessions st))))
    by (apply stats_NoDup; constructor).
  assert (Hk := ranking_key_nonempty st e Hp Hin).
  destruct (ranking_In st e Hin) as [He _].
  assert (Hnum : numeric (moduleStats_of (sessions st)))
    by (apply stats_numeric; [exact Hp | constructor]).
  unfold numeric in Hnum. rewrite Forall_forall in Hnum.
  destruct (Hnum _ He) as [q Hq]. simpl in Hq.
  exists q. split; [exact Hq|].
  apply (own_In _ _ _ Hnd) in He.
  assert (Hv := stats_value (sessions st) [] (moduleId e) Hp
                  ltac:(constructor) Hk).
  fold (moduleStats_of (sessions st)) in Hv.
  unfold value_of in Hv. rewrite He, Hq in Hv. simpl in Hv.
  rewrite Hv. ring.
Qed.

Lemma ranking_has (st : Store) (k : string) :
  plain_ids (sessions st) ->
  (exists s, In s (sessions st) /\ topic_of s = Some k) ->
  exists e, In e (getMostStudiedModules st) /\ moduleId e = k.
Proof.
  intros Hp Hs.
  assert (Hk : In k (map fst (moduleStats_of (sessions st)))).
  { apply stats_keys; [exact Hp | constructor | now right]. }
  apply (Permutation_in _ (Permutation_sym (ranking_keys st))) in Hk.
  apply in_map_iff in Hk. destruct Hk as (e & He & Hin). eauto.
Qed.

(** A list of numbers in descending order of [num] is in the order
    [outranks]. *)
Lemma ranking_sorted (st : Store) :
  plain_ids (sessions st) ->
  StronglySorted outranks (getMostStudiedModules st).
Proof.
  intros Hp. unfold getMostStudiedModules.
  assert (Hn := ranking_numeric st Hp).
  assert (Hs := sort_sorted (Object_entries (moduleStats_of (sessions st)))
                  ltac:(apply (numeric_perm (moduleStats_of (sessions st)));
                        [symmetry; apply Object_entries_perm
                        | apply stats_numeric; [exact Hp | constructor]])).
  revert Hn Hs.
  generalize (sort (Object_entries (moduleStats_of (sessions st)))).
  intros l Hn Hs. induction Hs as [|x l Hs IH Hall]; simpl; [constructor|].
  inversion Hn as [|x' l' [qx Hx] Hl]; subst.
  constructor; [now apply IH|].
  rewrite Forall_map. unfold numeric in Hl.
  rewrite Forall_forall in Hall, Hl. apply Forall_forall. intros z Hz.
  destruct (Hl z Hz) as [qz Hqz]. specialize (Hall z Hz).
  unfold outranks, descending in *. simpl. rewrite Hx, Hqz in *. exact Hall.
Qed.

Lemma title_of_found (ms : list CourseModule) (k : string) (m : CourseModule) :
  find (fun m => String.eqb (cm_id m) k) ms = Some m ->
  module_title m <> EmptyString ->
  title_of ms k = module_title m.
Proof.
  intros Hf Hne. unfold title_of, truthy. rewrite Hf.
  destruct (String.eqb_spec (module_title m) EmptyString); [congruence|].
  reflexivity.
Qed.

Lemma title_of_missing (ms : list CourseModule) (k : string) :
  (forall m, In m ms -> cm_id m <> k) ->
  title_of ms k = "Unknown Module"%string.
Proof.
  intros Hno. unfold title_of.
  destruct (find _ ms) as [m|] eqn:Hf; [|reflexivity].
  apply find_some in Hf. destruct Hf as [Hin Heq].
  apply String.eqb_eq in Heq. now apply Hno in Hin.
Qed.

(** C8: for sessions whose module ids are not names of members of
    Object.prototype, [getMostStudiedModules] groups the cached sessions
    by module id, leaving out the sessions that have none (null, or the
    empty string the test of line 70 rejects as well); each group carries,
    as a number, the sum of the durations of its sessions; the groups come
    in descending order of that sum; the name of a group is the title the
    modules cache has for its id, and the placeholder when the cache
    resolves no title for it (no module of that id, or one whose title is
    empty).  Over the sessions topicA 30, topicB 10, topicA 5 the result
    is topicA 35 then topicB 10. *)
Theorem most_studied_modules_ranking :
  forall (st : Store),
    plain_ids (sessions st) ->
    let ranking := getMostStudiedModules st in
    StronglySorted outranks ranking /\
    NoDup (map moduleId ranking) /\
    (forall k, In k (map moduleId ranking) <->
       exists s, In s (sessions st) /\ module_id s = Some k /\ k <> EmptyString) /\
    (forall e, In e ranking ->
       exists q, total e = Num q /\
                 q == minutes_for (moduleId e) (sessions st)) /\
    (forall e m, In e ranking ->
       find (fun m => String.eqb (cm_id m) (moduleId e)) (modules st) = Some m ->
       module_title m <> EmptyString ->
       moduleName e = module_title m) /\
    (forall e, In e ranking ->
       (forall m, In m (modules st) -> cm_id m <> moduleId e) ->
       moduleName e = "Unknown Module"%string) /\
    (forall e m, In e ranking ->
       find (fun m => String.eqb (cm_id m) (moduleId e)) (modules st) = Some m ->
       module_title m = EmptyString ->
       moduleName e = "Unknown Module"%string) /\
    getMostStudiedModules example_store =
      [mkModuleStat "topicA" (Num 35) "Algorithms";
       mkModuleStat "topicB" (Num 10) "Unknown Module"].
Proof.
  intros st Hp ranking.
  assert (Hnd : NoDup (map fst (moduleStats_of (sessions st)))).
  { apply stats_NoDup. constructor. }
  repeat apply conj.
  - now apply ranking_sorted.
  - eapply Permutation_NoDup; [symmetry; apply ranking_keys | exact Hnd].
  - intros k. split.
    + intros Hin.
      apply (Permutation_in _ (ranking_keys st)) in Hin.
      apply stats_keys in Hin; [|exact Hp | constructor].
      destruct Hin as [[] | (s & Hs & Ht)].
      apply topic_of_spec in Ht. eauto.
    + intros (s & Hs & Hm & Hk).
      apply (Permutation_in _ (Permutation_sym (ranking_keys st))).
      apply stats_keys; [exact Hp | constructor|].
      right. exists s. split; [exact Hs|].
      now apply topic_of_spec.
  - intros e Hin. now apply ranking_total.
  - intros e m Hin Hf Hne.
    destruct (ranking_In st e Hin) as [_ ->]. now apply title_of_found.
  - intros e Hin Hno.
    destruct (ranking_In st e Hin) as [_ ->]. now apply title_of_missing.
  - intros e m Hin Hf Hempty.
    destruct (ranking_In st e Hin) as [_ ->].
    unfold title_of. now rewrite Hf, Hempty.
  - reflexivity.
Qed.

Lemma example_store_plain : plain_ids (sessions example_store).
Proof.
  intros s k [<- | [<- | [<- | []]]] [= <-]; reflexivity.
Qed.

Lemma most_studied_modules_ranking_witness :
  let top := mkModuleStat "topicA" (Num 35) "Algorithms" in
  let second := mkModuleStat "topicB" (Num 10) "Unknown Module" in
  (exists q, total top = Num q /\
             q == minutes_for "topicA" (sessions example_store)) /\
  moduleName top = "Algorithms"%string /\
  moduleName second = "Unknown Module"%string.
Proof.
  intros top second.
  destruct (most_studied_modules_ranking example_store example_store_plain)
    as (_ & _ & _ & Hsum & Hfound & Hmissing & _ & Hex).
  rewrite Hex in Hsum, Hfound, Hmissing.
  split; [|split].
  - apply (Hsum top). now left.
  - apply (Hfound top (mkCourseModule "topicA" "CS101" "Algorithms"));
      [now left | reflexivity | discriminate].
  - apply (Hmissing second); [right; now left|].
    intros m [<- | []]. discriminate.
Defined.

(** [createStudySession] never lets an exception out, whatever the remote
    store answers. *)
Lemma createStudySession_total (db : Supabase) (moduleId : option string)
    (duration : Q) (date : string) (notes : option string) (st : Store) :
  exists v, result_of (createStudySession db moduleId duration date notes st) = inl v.
Proof.
  unfold createStudySession, try_catch, bind, await, result_of.
  destruct (auth_getUser db) as [[user|]|]; simpl; eauto.
  destruct (insert_session db _) as [[d [e|]]|]; simpl; eauto.
  destruct d as [[row rest]|]; simpl; eauto.
Qed.

(** C4: for every input, when no user is authenticated or the remote
    insert fails (it reports an error, or its promise rejects; likewise
    when the identity lookup rejects), [createStudySession] returns null,
    leaves the store and with it the sessions cache unchanged, and throws
    nothing: it ends with a value, after the error notification. *)
Theorem createStudySession_failure_returns_null :
  forall (db : Supabase) (moduleId : option string) (duration : Q)
         (date : string) (notes : option string) (st : Store),
    (auth_getUser db = Resolves None \/
     auth_getUser db = Rejects \/
     exists user,
       auth_getUser db = Resolves (Some user) /\
       (insert_session db (newSession user moduleId duration date notes) = Rejects \/
        exists reply e,
          insert_session db (newSession user moduleId duration date notes)
            = Resolves reply /\
          error reply = Some e)) ->
    let outcome := createStudySession db moduleId duration date notes st in
    result_of outcome = inl RetNull /\
    store_of outcome = st /\
    sessions (store_of outcome) = sessions st /\
    In ToastLogFailed (trace_of outcome).
Proof.
  intros db moduleId duration date notes st H outcome. subst outcome.
  unfold createStudySession, try_catch, bind, await, result_of, store_of,
    trace_of.
  destruct H as [Hu | [Hu | (user & Hu & Hi)]]; rewrite Hu; simpl;
    [intuition auto | intuition auto |].
  destruct Hi as [Hi | (reply & e & Hi & He)]; rewrite Hi; simpl;
    rewrite ?He; simpl; intuition auto.
Qed.

Lemma createStudySession_failure_returns_null_witness :
  let db := mkSupabase (Resolves (Some (mkUser "u1")))
                       (Resolves (mkReply (Some []) None))
                       (fun _ => Resolves (mkReply (Some []) None))
                       (fun _ => Resolves (mkReply None (Some "insert failed"%string))) in
  let outcome := createStudySession db None 25 "2024-01-01" None example_store in
  result_of outcome = inl RetNull /\
  store_of outcome = example_store /\
  sessions (store_of outcome) = sessions example_store /\
  In ToastLogFailed (trace_of outcome).
Proof.
  intros db.
  apply (createStudySession_failure_returns_null db None 25 "2024-01-01" None
           example_store).
  right. right. exists (mkUser "u1"). split; [reflexivity|].
  right. exists (mkReply None (Some "insert failed"%string)), "insert failed"%string.
  split; reflexivity.
Defined.

(** C5, as stated, fails: a step of the initial fetch fails (the sessions
    query rejects), and the modules cache does not remain in its prior
    empty state. *)
Lemma fetchData_keeps_fetched_modules :
  modules mounted = [] /\
  select_sessions sessions_query_fails "u1" = Rejects /\
  modules (store_of (fetchData sessions_query_fails mounted)) =
    [mkCourseModule "m1" "CS101" "Algorithms"] /\
  modules (store_of (fetchData sessions_query_fails mounted)) <> modules mounted.
Proof.
  repeat split. simpl. discriminate.
Qed.

(** C5, amended: on every path [fetchData] ends without an uncaught
    exception and with the loading flag cleared.  When no identity is
    authenticated, or the identity lookup or the modules query throws, the
    sessions and modules caches remain as they were and the failure is
    notified; when the sessions query throws, the sessions cache remains
    as it was. *)
Theorem fetchData_contains_failure :
  forall (db : Supabase) (st : Store),
    let outcome := fetchData db st in
    result_of outcome = inl tt /\
    isLoading (store_of outcome) = false /\
    (auth_getUser db = Resolves None \/ auth_getUser db = Rejects \/
     select_modules db = Rejects ->
       sessions (store_of outcome) = sessions st /\
       modules (store_of outcome) = modules st /\
       trace_of outcome = [ConsoleErrorFetching; ToastLoadFailed]) /\
    (forall user,
       auth_getUser db = Resolves (Some user) ->
       select_sessions db (uid user) = Rejects ->
       sessions (store_of outcome) = sessions st /\
       In ToastLoadFailed (trace_of outcome)).
Proof.
  intros db st outcome. subst outcome.
  unfold fetchData, try_finally, try_catch, bind, await, result_of, store_of,
    trace_of.
  destruct (auth_getUser db) as [[user|]|] eqn:Eu; simpl.
  - destruct (select_modules db) as [mreply|] eqn:Em; simpl.
    + destruct (select_sessions db (uid user)) as [sreply|] eqn:Es; simpl;
        (split; [reflexivity|]); (split; [reflexivity|]); split;
        try (intros [H | [H | H]]; discriminate);
        intros user' [= <-] Hrej; [congruence | auto].
    + (split; [reflexivity|]); (split; [reflexivity|]); split; [auto|].
      intros user' [= <-] Hrej. auto.
  - (split; [reflexivity|]); (split; [reflexivity|]); split; [auto|].
    intros user' [=].
  - (split; [reflexivity|]); (split; [reflexivity|]); split; [auto|].
    intros user' [=].
Qed.

Lemma fetchData_contains_failure_witness :
  let unauthenticated :=
    mkSupabase (Resolves None) Rejects (fun _ => Rejects) (fun _ => Rejects) in
  result_of (fetchData unauthenticated mounted) = inl tt /\
  isLoading (store_of (fetchData unauthenticated mounted)) = false /\
  sessions (store_of (fetchData unauthenticated mounted)) = [] /\
  modules (store_of (fetchData unauthenticated mounted)) = [] /\
  sessions (store_of (fetchData sessions_query_fails mounted)) = [].
Proof.
  intros db.
  destruct (fetchData_contains_failure db mounted) as (Hr & Hl & Hnone & _).
  destruct (Hnone (or_introl eq_refl)) as (Hs & Hm & _).
  destruct (fetchData_contains_failure sessions_query_fails mounted)
    as (_ & _ & _ & Hlate).
  destruct (Hlate (mkUser "u1") eq_refl eq_refl) as [Hs' _].
  repeat split; assumption.
Defined.

End StoreClaims.

(** * The reward, in the engine and in the store *)

Section Reward.

Import FocusTimer.
Local Open Scope Z_scope.

(** The store rewards a session of d minutes with max(1, floor(d / 10)). *)
Lemma store_reward_minutes (d : Z) :
  StudySessions.earnedCoins (inject_Z d) = Z.max 1 (d / 10).
Proof.
  unfold StudySessions.earnedCoins, Qfloor, Qdiv, Qmult, Qinv, inject_Z. simpl.
  now rewrite Z.mul_1_r.
Qed.

Lemma store_reward_row (user : StudySessions.User) (moduleId : option string)
    (d : Z) (date : string) (notes : option string) :
  StudySessions.ns_earned_coins
    (StudySessions.newSession user moduleId (inject_Z d) date notes)
  = Z.max 1 (d / 10).
Proof. apply store_reward_minutes. Qed.

(** The engine rewards a completed session of m minutes with
    max(1, floor(60 m / 10)), that is 6 m coins. *)
Lemma timer_reward_seconds (m : Z) :
  0 < m ->
  coins (fst (run (Configure m :: Start :: seconds (Z.to_nat (m * 60))) initial))
  = 6 * m.
Proof.
  intros Hm. rewrite run_cons.
  assert (E : fst (step (Configure m) initial) =
              mkTimer (m * 60) (m * 60) idle 0 None [] 1).
  { unfold step. simpl handler. unfold updateDuration. simpl r_status. cbv iota.
    simpl fst. rewrite sync_timeLeft_idle; reflexivity. }
  rewrite E. cbn [run].
  rewrite step_start_shape;
    [|apply one_source_nil; reflexivity | left; reflexivity].
  destruct (Z.to_nat (m * 60)) as [|n] eqn:En; [lia|].
  erewrite countdown; try reflexivity; [|cbn [timeLeft]; lia].
  cbn [fst coins captured_duration duration]. unfold FocusTimer.earnedCoins.
  replace (m * 60 / 10) with (6 * m)
    by (apply Z.div_unique_exact; lia).
  lia.
Qed.

(** C1, on the code: at the completion of a 25-minute session the engine
    adds max(1, floor(1500 / 10)) = 150 coins, counting the duration in
    seconds, where the reward of 25 minutes is max(1, floor(25 / 10)) = 2;
    the row the store inserts for that very session, logged with
    1500 / 60 minutes, carries earned_coins = 2. *)
Theorem timer_reward_counts_seconds :
  let result := run (Configure 25 :: Start :: seconds 1500) initial in
  coins (fst result) = 150 /\
  snd result = [LogTimerSession (inject_Z 1500 / 60)%Q; ToastCompleted 150] /\
  Z.max 1 (25 / 10) = 2 /\
  StudySessions.trace_of
    (StudySessions.logTimerSession StudySessions.accepting "2024-01-01"
       (inject_Z 1500 / 60)%Q None StudySessions.mounted)
  = [StudySessions.InsertRow
       (StudySessions.mkNewSession "u1" None (inject_Z 1500 / 60)%Q
          "2024-01-01" (Some "Logged from Focus Timer"%string) 2);
     StudySessions.ToastLogged 2].
Proof.
  vm_compute. repeat split.
Qed.

End Reward.

(** * Further properties of the countdown engine *)

Section TimerExtras.

Import FocusTimer.
Local Open Scope Z_scope.

Lemma run_app (a b : list Op) : forall t,
  run (a ++ b) t =
    (fst (run b (fst (run a t))), snd (run a t) ++ snd (run b (fst (run a t)))).
Proof.
  induction a as [|o a IH]; intros t; simpl.
  - now destruct (run b t).
  - destruct (step o t) as [t1 e1]. rewrite IH.
    destruct (run a t1) as [t2 e2]. simpl.
    destruct (run b t2) as [t3 e3]. simpl. now rewrite app_assoc.
Qed.

Lemma reachable_quiet (t : Timer) :
  reachable t -> status t <> running -> scheduled t = [].
Proof.
  intros Hr Hs. destruct (scheduled t) as [|i l] eqn:E; [reflexivity|].
  destruct (reachable_running_source t Hr i) as [Hrun _];
    [rewrite E; now left | contradiction].
Qed.

Lemma seconds_quiet (n : nat) (t : Timer) :
  scheduled t = [] -> run (seconds n) t = (t, []).
Proof.
  intros E. induction n as [|n IH]; [reflexivity|].
  change (seconds (S n)) with (Second :: seconds n). cbn [run].
  now rewrite (step_second_idle t E), IH.
Qed.

Lemma step_pause_running (t : Timer) :
  one_source t -> status t = running ->
  step Pause t =
    (mkTimer (duration t) (timeLeft t) paused (coins t) (intervalRef t) []
             (next_handle t), [ToastPaused]).
Proof.
  intros H1 Hs. assert (Hc := clear_ref_unschedules t H1).
  unfold step, handler, pauseTimer, render_of. simpl. rewrite Hs.
  rewrite sync_timeLeft_not_idle by (simpl; discriminate).
  f_equal. unfold setStatus.
  destruct (clear_frame (intervalRef t) t) as (-> & -> & _ & -> & -> & ->).
  now rewrite Hc.
Qed.

(** X1: pausing a running engine keeps the remaining time, the duration
    and the coins, cancels the tick and announces the pause; from then on
    the passing of time changes nothing. *)
Theorem pause_freezes_countdown :
  forall (t : Timer) (n : nat),
    reachable t -> status t = running ->
    let p := fst (step Pause t) in
    status p = paused /\
    timeLeft p = timeLeft t /\
    duration p = duration t /\
    coins p = coins t /\
    scheduled p = [] /\
    snd (step Pause t) = [ToastPaused] /\
    run (seconds n) p = (p, []).
Proof.
  intros t n Hr Hs p. subst p.
  rewrite (step_pause_running t (reachable_one_source t Hr) Hs). simpl.
  repeat split. now apply seconds_quiet.
Qed.

Lemma pause_freezes_countdown_witness :
  let t := fst (run [Start; Second; Second] initial) in
  timeLeft t = 1498 /\
  timeLeft (fst (step Pause t)) = 1498 /\
  run (seconds 10) (fst (step Pause t)) = (fst (step Pause t), []).
Proof.
  intros t.
  assert (Hr : reachable t)
    by (apply (run_reachable [Start; Second; Second]), reach_initial).
  destruct (pause_freezes_countdown t 10 Hr eq_refl)
    as (_ & Ht & _ & _ & _ & _ & Hq).
  split; [reflexivity|]. split; [exact Ht | exact Hq].
Defined.

(** X2: a countdown that is paused, left alone for any time and resumed
    takes exactly as many further ticks as it had seconds left; it then
    completes, awards the reward once and logs the session once. *)
Theorem pause_resume_keeps_remaining_time :
  forall (t : Timer) (n j : nat),
    reachable t -> status t = running -> timeLeft t = Z.of_nat (S n) ->
    let result := run (Pause :: seconds j ++ Resume :: seconds (S n)) t in
    status (fst result) = completed /\
    timeLeft (fst result) = 0 /\
    coins (fst result) = coins t + FocusTimer.earnedCoins (duration t) /\
    log_calls (snd result) = [LogTimerSession (inject_Z (duration t) / 60)%Q].
Proof.
  intros t n j Hr Hs Hn result. subst result.
  assert (H1 := reachable_one_source t Hr).
  cbn [run]. rewrite (step_pause_running t H1 Hs).
  set (p := mkTimer (duration t) (timeLeft t) paused (coins t)
                    (intervalRef t) [] (next_handle t)).
  rewrite run_app, (seconds_quiet j p eq_refl). cbn [fst snd run].
  assert (Hresume : step Resume p = step Start p) by reflexivity.
  rewrite Hresume, step_start_shape;
    [|apply one_source_nil; reflexivity | right; reflexivity].
  erewrite countdown; try reflexivity; [|exact Hn].
  simpl. auto.
Qed.

Lemma pause_resume_keeps_remaining_time_witness :
  let t := fst (run (Configure 1 :: Start :: seconds 58) initial) in
  let result := run (Pause :: seconds 30 ++ Resume :: seconds 2) t in
  status (fst result) = completed /\
  timeLeft (fst result) = 0 /\
  coins (fst result) = 0 + FocusTimer.earnedCoins 60 /\
  log_calls (snd result) = [LogTimerSession (inject_Z 60 / 60)%Q].
Proof.
  intros t.
  apply (pause_resume_keeps_remaining_time t 1 30).
  - apply (run_reachable (Configure 1 :: Start :: seconds 58)), reach_initial.
  - reflexivity.
  - reflexivity.
Defined.

Lemma step_idle_full (o : Op) (t : Timer) :
  one_source t -> running_source t ->
  (status t = idle -> timeLeft t = duration t) ->
  status (fst (step o t)) = idle ->
  timeLeft (fst (step o t)) = duration (fst (step o t)).
Proof.
  intros H1 H2 Hinv.
  assert (Hsame : fst (step o t) = t ->
                  status (fst (step o t)) = idle ->
                  timeLeft (fst (step o t)) = duration (fst (step o t))).
  { intros ->. exact Hinv. }
  assert (Hstop : status (fst (step Stop t)) = idle ->
                  timeLeft (fst (step Stop t)) = duration (fst (step Stop t))).
  { intros _. destruct (step_stop_shape t) as (-> & _).
    simpl. destruct (intervalRef t); reflexivity. }
  destruct o.
  - destruct (status t) eqn:E.
    + rewrite step_start_shape by auto. discriminate.
    + apply Hsame. unfold step, handler, startTimer, render_of. simpl.
      rewrite E. simpl. now rewrite sync_timeLeft_same.
    + rewrite step_start_shape by auto. discriminate.
    + apply Hsame. unfold step, handler, startTimer, render_of. simpl.
      rewrite E. simpl. now rewrite sync_timeLeft_same.
  - destruct (status t) eqn:E;
      try (apply Hsame; unfold step, handler, pauseTimer, render_of; simpl;
           rewrite E; simpl; now rewrite sync_timeLeft_same).
    rewrite step_pause_running by auto. discriminate.
  - destruct (status t) eqn:E;
      try (apply Hsame; unfold step, handler, resumeTimer, render_of; simpl;
           rewrite E; simpl; now rewrite sync_timeLeft_same).
    replace (step Resume t) with (step Start t)
      by (unfold step, handler, resumeTimer, render_of; simpl; now rewrite E).
    rewrite step_start_shape by auto. discriminate.
  - exact Hstop.
  - exact Hstop.
  - destruct (status t) eqn:E;
      try (apply Hsame; unfold step, handler, updateDuration, render_of; simpl;
           rewrite E; simpl; now rewrite sync_timeLeft_same).
    intros _. unfold step, handler, updateDuration, render_of. simpl.
    rewrite E. simpl. rewrite sync_timeLeft_idle; simpl; auto.
  - destruct (one_source_cases t H1) as [E | [i [E R]]].
    + apply Hsame. now rewrite (step_second_idle t E).
    + destruct (Z.leb_spec (timeLeft t) 0) as [H0|H0].
      * rewrite (step_second_empty t i E R H0). discriminate.
      * destruct (Z.eq_dec (timeLeft t) 1) as [He|Hne].
        -- rewrite (step_second_complete t i E R He). discriminate.
        -- rewrite (step_second_decrement t i E) by lia. simpl.
           destruct (H2 i) as [Hrun _]; [rewrite E; now left|]. congruence.
Qed.

(** X3: whenever the engine is idle, the remaining time it shows is the
    full configured duration. *)
Theorem idle_shows_full_duration :
  forall (t : Timer), reachable t -> status t = idle -> timeLeft t = duration t.
Proof.
  induction 1 as [|o t Hr IH]; [reflexivity|].
  apply step_idle_full; auto using reachable_one_source, reachable_running_source.
Qed.

Lemma idle_shows_full_duration_witness :
  let t := fst (run [Configure 5; Start; Second; Pause; Stop] initial) in
  timeLeft t = 300 /\ duration t = 300.
Proof.
  intros t. split; [|reflexivity].
  rewrite (idle_shows_full_duration t); [reflexivity | | reflexivity].
  apply (run_reachable [Configure 5; Start; Second; Pause; Stop]), reach_initial.
Defined.

Lemma step_running_ticks (o : Op) (t : Timer) :
  one_source t -> running_source t ->
  (status t = running -> scheduled t <> []) ->
  status (fst (step o t)) = running -> scheduled (fst (step o t)) <> [].
Proof.
  intros H1 H2 Hinv.
  assert (Hsame : fst (step o t) = t ->
                  status (fst (step o t)) = running ->
                  scheduled (fst (step o t)) <> []).
  { intros ->. exact Hinv. }
  assert (Hstop : status (fst (step Stop t)) = running ->
                  scheduled (fst (step Stop t)) <> []).
  { destruct (step_stop_shape t) as (-> & _). simpl.
    destruct (intervalRef t); discriminate. }
  destruct o.
  - destruct (status t) eqn:E;
      try (rewrite step_start_shape by auto; discriminate);
      apply Hsame; unfold step, handler, startTimer, render_of; simpl;
      rewrite E; simpl; now rewrite sync_timeLeft_same.
  - destruct (status t) eqn:E;
      try (apply Hsame; unfold step, handler, pauseTimer, render_of; simpl;
           rewrite E; simpl; now rewrite sync_timeLeft_same).
    rewrite step_pause_running by auto. discriminate.
  - destruct (status t) eqn:E;
      try (apply Hsame; unfold step, handler, resumeTimer, render_of; simpl;
           rewrite E; simpl; now rewrite sync_timeLeft_same).
    replace (step Resume t) with (step Start t)
      by (unfold step, handler, resumeTimer, render_of; simpl; now rewrite E).
    rewrite step_start_shape by auto. discriminate.
  - exact Hstop.
  - exact Hstop.
  - destruct (status t) eqn:E;
      try (apply Hsame; unfold step, handler, updateDuration, render_of; simpl;
           rewrite E; simpl; now rewrite sync_timeLeft_same).
    unfold step, handler, updateDuration, render_of. simpl.
    rewrite E. simpl. rewrite sync_timeLeft_idle; simpl; auto.
    rewrite E. discriminate.
  - destruct (one_source_cases t H1) as [E | [i [E R]]].
    + apply Hsame. now rewrite (step_second_idle t E).
    + destruct (Z.leb_spec (timeLeft t) 0) as [H0|H0].
      * rewrite (step_second_empty t i E R H0). discriminate.
      * destruct (Z.eq_dec (timeLeft t) 1) as [He|Hne].
        -- rewrite (step_second_complete t i E R He). discriminate.
        -- rewrite (step_second_decrement t i E) by lia. simpl.
           rewrite E. discriminate.
Qed.

Lemma reachable_running_ticks (t : Timer) :
  reachable t -> status t = running -> scheduled t <> [].
Proof.
  induction 1 as [|o t Hr IH]; [discriminate|].
  apply step_running_ticks; auto using reachable_one_source, reachable_running_source.
Qed.

(** X4: the engine is running exactly when a tick source is scheduled, and
    then it is the single interval the engine holds, whose callback carries
    the current duration.  No interval outlives the running state and no
    running state is without its tick. *)
Theorem running_iff_ticking :
  forall (t : Timer),
    reachable t ->
    (status t = running <->
     exists i, scheduled t = [i] /\ intervalRef t = Some (handle i) /\
               captured_duration i = duration t) /\
    (status t <> running <-> scheduled t = []).
Proof.
  intros t Hr.
  assert (H1 := reachable_one_source t Hr).
  assert (Hticks := reachable_running_ticks t Hr).
  split; split.
  - intros Hs. destruct (one_source_cases t H1) as [E | [i [E R]]].
    + now apply Hticks in Hs.
    + exists i. destruct (reachable_scheduled t i Hr E) as (_ & _ & Hd). auto.
  - intros (i & E & _). now destruct (reachable_scheduled t i Hr E) as (_ & Hs & _).
  - now apply reachable_quiet.
  - intros E Hs. now apply Hticks in Hs.
Qed.

Lemma running_iff_ticking_witness :
  let t := fst (run [Start; Second] initial) in
  exists i, scheduled t = [i] /\ intervalRef t = Some (handle i) /\
            captured_duration i = 1500.
Proof.
  intros t.
  assert (Hr : reachable t) by (apply (run_reachable [Start; Second]), reach_initial).
  destruct (running_iff_ticking t Hr) as [[Hrun _] _].
  exact (Hrun eq_refl).
Defined.

Lemma step_bounds (o : Op) (t : Timer) :
  one_source t -> nonneg_op o ->
  0 <= timeLeft t <= duration t ->
  0 <= timeLeft (fst (step o t)) <= duration (fst (step o t)).
Proof.
  intros H1 Ho Hb.
  assert (Hsync : forall b, 0 <= timeLeft b <= duration b ->
                  0 <= timeLeft (sync_timeLeft t b) <= duration (sync_timeLeft t b)).
  { intros b Hbb. unfold sync_timeLeft.
    destruct (_ && _)%bool; [exact Hbb|].
    destruct (status b); simpl; lia. }
  destruct o;
    try (unfold step, handler, startTimer, pauseTimer, resumeTimer, startTimer,
           resetTimer, stopTimer, updateDuration, render_of; simpl;
         destruct (status t); simpl; apply Hsync;
         destruct (intervalRef t); simpl in *; lia).
  destruct (one_source_cases t H1) as [E | [i [E R]]].
  - now rewrite (step_second_idle t E).
  - destruct (Z.leb_spec (timeLeft t) 0) as [H0|H0].
    + rewrite (step_second_empty t i E R H0). simpl. lia.
    + destruct (Z.eq_dec (timeLeft t) 1) as [He|Hne].
      * rewrite (step_second_complete t i E R He). simpl. lia.
      * rewrite (step_second_decrement t i E) by lia. simpl. lia.
Qed.

Lemma run_bounds (ops : list Op) : forall t,
  reachable t -> Forall nonneg_op ops ->
  0 <= timeLeft t <= duration t ->
  0 <= timeLeft (fst (run ops t)) <= duration (fst (run ops t)).
Proof.
  induction ops as [|o ops IH]; intros t Hr Hall Hb; [exact Hb|].
  inversion Hall as [|x l Ho Hrest]; subst.
  rewrite run_cons. apply IH; [now constructor | exact Hrest |].
  apply step_bounds; auto using reachable_one_source.
Qed.

(** X5: as long as the engine is only ever configured with non-negative
    numbers of minutes, the remaining time stays between 0 and the
    configured duration, whatever the sequence of events since mount. *)
Theorem remaining_time_within_bounds :
  forall (ops : list Op),
    Forall nonneg_op ops ->
    let t := fst (run ops initial) in
    0 <= timeLeft t <= duration t.
Proof.
  intros ops Hall t. subst t.
  apply run_bounds; [constructor | exact Hall | simpl; lia].
Qed.

Lemma remaining_time_within_bounds_witness :
  let t := fst (run [Configure 2; Start; Second; Pause; Configure 9; Resume; Second]
                    initial) in
  0 <= timeLeft t <= duration t.
Proof.
  apply (remaining_time_within_bounds
           [Configure 2; Start; Second; Pause; Configure 9; Resume; Second]).
  repeat constructor; simpl; lia.
Defined.

(** X6: a negative number of minutes is accepted as it is: the duration
    and the remaining time become negative, and once started the first
    tick completes the session with the remaining time set to 0, above the
    duration, without coins, log or announcement. *)
Theorem negative_duration_completes_silently :
  forall (m : Z),
    m < 0 ->
    let configured := fst (step (Configure m) initial) in
    let result := run [Start; Second] configured in
    duration configured = m * 60 /\
    timeLeft configured = m * 60 /\
    status (fst result) = completed /\
    timeLeft (fst result) = 0 /\
    duration (fst result) < timeLeft (fst result) /\
    coins (fst result) = 0 /\
    snd result = [].
Proof.
  intros m Hm configured result.
  assert (E : configured = mkTimer (m * 60) (m * 60) idle 0 None [] 1).
  { unfold configured, step. simpl handler. unfold updateDuration.
    simpl r_status. cbv iota. simpl fst.
    rewrite sync_timeLeft_idle; reflexivity. }
  subst result. rewrite E. cbn [run].
  rewrite step_start_shape;
    [|apply one_source_nil; reflexivity | left; reflexivity].
  erewrite step_second_empty; try reflexivity; [|simpl; lia].
  simpl. repeat split; lia.
Qed.

Lemma negative_duration_completes_silently_witness :
  let result := run [Configure (-1); Start; Second] initial in
  status (fst result) = completed /\
  timeLeft (fst result) = 0 /\
  duration (fst result) = -60.
Proof.
  destruct (negative_duration_completes_silently (-1)) as (_ & _ & Hs & Ht & _);
    [lia|].
  split; [exact Hs|]. split; [exact Ht | reflexivity].
Defined.

(** X7: a completed session stays completed until it is stopped or reset:
    start, pause, resume, configure and the passing of time leave the
    whole state as it is and emit nothing. *)
Theorem completed_needs_reset :
  forall (t : Timer) (o : Op),
    reachable t -> status t = completed ->
    o <> Stop -> o <> Reset ->
    step o t = (t, []).
Proof.
  intros t o Hr Hs Hstop Hreset.
  destruct o; try congruence;
    try (unfold step, handler, startTimer, pauseTimer, resumeTimer,
           updateDuration, render_of; simpl; rewrite Hs;
         rewrite sync_timeLeft_same; reflexivity).
  apply step_second_idle, reachable_quiet; [exact Hr|]. rewrite Hs. discriminate.
Qed.

Lemma completed_needs_reset_witness :
  let t := fst (run (Configure 1 :: Start :: seconds 60) initial) in
  status t = completed /\
  step Start t = (t, []) /\
  step (Configure 5) t = (t, []) /\
  step Second t = (t, []).
Proof.
  intros t.
  assert (Hr : reachable t)
    by (apply (run_reachable (Configure 1 :: Start :: seconds 60)), reach_initial).
  assert (Hs : status t = completed) by (vm_compute; reflexivity).
  split; [exact Hs|].
  split; [|split]; apply (completed_needs_reset t _ Hr Hs); discriminate.
Defined.

Lemma announced_app (a b : list Effect) :
  announced (a ++ b) = announced a + announced b.
Proof.
  induction a as [|e a IH]; simpl; [reflexivity|].
  destruct e; rewrite IH; lia.
Qed.

(** What one event adds to the coins and to the trace. *)
Lemma step_outcome (o : Op) (t : Timer) :
  one_source t -> running_source t ->
  (coins (fst (step o t)) = coins t /\
   Forall (fun e => is_log e = false /\ is_completion_toast e = false)
          (snd (step o t))) \/
  (coins (fst (step o t)) = coins t + FocusTimer.earnedCoins (duration t) /\
   snd (step o t) =
     [LogTimerSession (inject_Z (duration t) / 60)%Q;
      ToastCompleted (FocusTimer.earnedCoins (duration t))]).
Proof.
  intros H1 H2.
  assert (Hcoins : coins (fst (step o t)) =
                   coins (fst (handler o (render_of t) t))).
  { unfold step. destruct (handler o (render_of t) t) as [t' e]. simpl.
    apply sync_timeLeft_frame. }
  assert (Htrace : snd (step o t) = snd (handler o (render_of t) t)).
  { unfold step. now destruct (handler o (render_of t) t). }
  destruct o;
    try (left; rewrite Hcoins, Htrace;
         unfold handler, startTimer, pauseTimer, resumeTimer, startTimer,
           resetTimer, stopTimer, updateDuration, render_of; simpl;
         destruct (status t); simpl; destruct (intervalRef t); simpl;
         (split; [reflexivity | repeat constructor])).
  destruct (one_source_cases t H1) as [E | [i [E R]]].
  - left. rewrite (step_second_idle t E). simpl. auto.
  - destruct (H2 i) as [_ Hcap]; [rewrite E; now left|].
    destruct (Z.leb_spec (timeLeft t) 0) as [H0|H0].
    + left. rewrite (step_second_empty t i E R H0). simpl. auto.
    + destruct (Z.eq_dec (timeLeft t) 1) as [He|Hne].
      * right. rewrite (step_second_complete t i E R He). simpl.
        rewrite Hcap. auto.
      * left. rewrite (step_second_decrement t i E) by lia. simpl. auto.
Qed.

(** X8: over any sequence of events, the coins gained are exactly the
    coins the completion toasts announced, and the session-logging call
    was made once for each completion announced. *)
Theorem coins_match_announcements :
  forall (ops : list Op) (t : Timer),
    reachable t ->
    let result := run ops t in
    coins (fst result) = coins t + announced (snd result) /\
    List.length (log_calls (snd result)) =
      List.length (filter is_completion_toast (snd result)).
Proof.
  induction ops as [|o ops IH]; intros t Hr result; subst result.
  - simpl. split; [lia | reflexivity].
  - cbn [run].
    destruct (step_outcome o t (reachable_one_source t Hr)
                (reachable_running_source t Hr)) as [[Hc Hq] | [Hc He]];
      specialize (IH (fst (step o t)) (reach_step o t Hr));
      destruct (step o t) as [t1 e1]; simpl in *;
      destruct (run ops t1) as [t2 e2]; simpl in *;
      destruct IH as [IHc IHl];
      unfold log_calls in *; rewrite announced_app, !filter_app, !length_app.
    + assert (Hz : announced e1 = 0 /\ filter is_log e1 = [] /\
                   filter is_completion_toast e1 = []).
      { clear -Hq. induction Hq as [|e l [Hl Ht] _ (IH1 & IH2 & IH3)]; simpl; auto.
        rewrite Hl, Ht. destruct e; simpl in *; try discriminate; auto. }
      destruct Hz as (-> & -> & ->). simpl. split; lia.
    + subst e1. simpl. split; lia.
Qed.

Lemma coins_match_announcements_witness :
  let result :=
    run (Configure 1 :: Start :: seconds 60 ++ Stop :: Start :: seconds 60) initial in
  coins (fst result) = 12 /\
  announced (snd result) = 12 /\
  List.length (log_calls (snd result)) = 2%nat.
Proof.
  intros result.
  destruct (coins_match_announcements
              (Configure 1 :: Start :: seconds 60 ++ Stop :: Start :: seconds 60)
              initial reach_initial) as [Hc Hl].
  fold result in Hc, Hl.
  assert (Ha : announced (snd result) = 12) by (vm_compute; reflexivity).
  split; [rewrite Hc, Ha; reflexivity|]. split; [exact Ha|].
  rewrite Hl. vm_compute. reflexivity.
Defined.

(** X9: unmounting cancels the engine's tick source: nothing remains
    scheduled, so no callback fires, no coin is added and no session is
    logged after the component is gone. *)
Theorem unmount_cancels_tick :
  forall (t : Timer) (n : nat),
    reachable t ->
    scheduled (unmount t) = [] /\
    run (seconds n) (unmount t) = (unmount t, []) /\
    coins (unmount t) = coins t.
Proof.
  intros t n Hr.
  assert (Hc := clear_ref_unschedules t (reachable_one_source t Hr)).
  assert (E : unmount t = clearInterval (intervalRef t) t).
  { unfold unmount. now destruct (intervalRef t). }
  rewrite E. split; [exact Hc|]. split; [now apply seconds_quiet|].
  apply clear_frame.
Qed.

Lemma unmount_cancels_tick_witness :
  let t := fst (run [Start; Second] initial) in
  scheduled t <> [] /\
  scheduled (unmount t) = [] /\
  run (seconds 5) (unmount t) = (unmount t, []).
Proof.
  intros t.
  assert (Hr : reachable t) by (apply (run_reachable [Start; Second]), reach_initial).
  destruct (unmount_cancels_tick t 5 Hr) as (Hs & Hq & _).
  split; [discriminate|]. split; [exact Hs | exact Hq].
Defined.

End TimerExtras.

(** * The clock text *)

Section FormatTime.

Import FocusTimer.
Local Open Scope Z_scope.

(** Reading a decimal numeral back. *)
Lemma toString_nonneg (m : Z) :
  0 <= m ->
  exists u, u <> Decimal.Nil /\ Z.to_int m = Decimal.Pos u /\
            toString m = NilEmpty.string_of_uint u.
Proof.
  intros Hm. destruct m as [|p|p]; [| |lia].
  - exists (Decimal.D0 Decimal.Nil). repeat split. discriminate.
  - exists (Pos.to_uint p). split; [apply Unsigned.to_uint_nonnil|].
    split; [reflexivity|]. unfold toString. simpl.
    generalize (Unsigned.to_uint_nonnil p).
    destruct (Pos.to_uint p); simpl; congruence.
Qed.

Lemma read_padded (m : Z) :
  0 <= m ->
  option_map Z.of_int (NilZero.int_of_string (padStart2 (toString m))) = Some m.
Proof.
  intros Hm. destruct (toString_nonneg m Hm) as (u & Hu & Hint & Hstr).
  assert (Hval : Z.of_int (Decimal.Pos u) = m) by (rewrite <- Hint; apply of_to).
  assert (Hread : NilZero.int_of_string (toString m) = Some (Decimal.Pos u)).
  { unfold toString. rewrite Hint. apply NilZero.isi; congruence. }
  unfold padStart2.
  destruct (String.length (toString m)) as [|[|n]] eqn:El.
  - exfalso. rewrite Hstr in El. destruct u; simpl in El; congruence.
  - rewrite Hstr. simpl. rewrite NilEmpty.usu. simpl. 
    rewrite <- Hval. reflexivity.
  - rewrite Hread. simpl. f_equal. exact Hval.
Qed.


Lemma string_length_app (x y : string) :
  String.length (x ++ y) = (String.length x + String.length y)%nat.
Proof. induction x as [|c x IH]; simpl; [reflexivity | now rewrite IH]. Qed.

(** Two texts that end in tails of the same length agree part by part. *)
Lemma string_app_inv (x y u v : string) :
  String.length u = String.length v ->
  (x ++ u)%string = (y ++ v)%string -> x = y /\ u = v.
Proof.
  intros Hl. revert y. induction x as [|c x IH]; intros [|d y] E; simpl in E.
  - auto.
  - exfalso. rewrite E in Hl. simpl in Hl. rewrite string_length_app in Hl. lia.
  - exfalso. rewrite <- E in Hl. simpl in Hl. rewrite string_length_app in Hl. lia.
  - injection E as -> E. destruct (IH y E) as [-> ->]. auto.
Qed.

Lemma padded_two_digits (n : Z) :
  0 <= n < 100 -> String.length (padStart2 (toString n)) = 2%nat.
Proof.
  intros Hn.
  assert (Hall : forallb (fun k => Nat.eqb (String.length
                   (padStart2 (toString (Z.of_nat k)))) 2) (seq 0 100) = true)
    by (vm_compute; reflexivity).
  rewrite forallb_forall in Hall.
  specialize (Hall (Z.to_nat n)). rewrite Z2Nat.id in Hall by lia.
  apply Nat.eqb_eq, Hall, in_seq. lia.
Qed.



(** X11: the text [formatTime] shows determines the remaining time: two
    different non-negative numbers of seconds are never shown alike. *)
Theorem formatTime_injective :
  forall (a b : Z),
    0 <= a -> 0 <= b -> formatTime a = formatTime b -> a = b.
Proof.
  intros a b Ha Hb E. unfold formatTime in E.
  assert (Hra := Z.rem_bound_pos a 60 Ha ltac:(lia)).
  assert (Hrb := Z.rem_bound_pos b 60 Hb ltac:(lia)).
  apply string_app_inv in E.
  - destruct E as [Em Es]. injection Es as Es.
    assert (Hq : a / 60 = b / 60).
    { assert (H := read_padded (a / 60) ltac:(apply Z.div_pos; lia)).
      rewrite Em, read_padded in H by (apply Z.div_pos; lia). congruence. }
    assert (Hr : Z.rem a 60 = Z.rem b 60).
    { assert (H := read_padded (Z.rem a 60) ltac:(lia)).
      rewrite Es, read_padded in H by lia. congruence. }
    rewrite !Z.rem_mod_nonneg in Hr by lia.
    rewrite (Z.div_mod a 60), (Z.div_mod b 60) by lia. congruence.
  - simpl. rewrite !padded_two_digits by lia. reflexivity.
Qed.

Lemma formatTime_injective_witness : formatTime 59 <> formatTime 60.
Proof.
  intros E. apply (formatTime_injective 59 60) in E; lia.
Defined.

End FormatTime.

(** * Further properties of the record store *)

Section StoreExtras.

Import StudySessions.
Local Open Scope Q_scope.

Lemma total_from (l : list StudySession) : forall (a : Q),
  fold_left (fun total session => total + duration session) l a ==
  a + Qsum (map duration l).
Proof.
  induction l as [|s l IH]; intros a; simpl.
  - unfold Qsum. simpl. ring.
  - rewrite IH. unfold Qsum. simpl. ring.
Qed.

Lemma getTotalStudyTime_sum (st : Store) :
  getTotalStudyTime st == Qsum (map duration (sessions st)).
Proof. unfold getTotalStudyTime. rewrite total_from. ring. Qed.

(** What [createStudySession] does when the user is signed in and the
    insert resolves without error. *)
Lemma createStudySession_resolved (db : Supabase) (moduleId : option string)
    (duration : Q) (date : string) (notes : option string) (st : Store)
    (user : User) (reply : Reply (StudySession * list StudySession)) :
  auth_getUser db = Resolves (Some user) ->
  insert_session db (newSession user moduleId duration date notes) = Resolves reply ->
  error reply = None ->
  createStudySession db moduleId duration date notes st =
    match data reply with
    | Some (row, _) =>
        (inl (RetSession row),
         mkStore (row :: sessions st) (modules st) (isLoading st),
         [InsertRow (newSession user moduleId duration date notes);
          ToastLogged (earnedCoins duration)])
    | None =>
        (inl RetUndefined, st,
         [InsertRow (newSession user moduleId duration date notes)])
    end.
Proof.
  intros Hu Hi He.
  unfold createStudySession, try_catch, bind, await. rewrite Hu. simpl.
  rewrite Hi. simpl. rewrite He.
  destruct (data reply) as [[row rest]|]; reflexivity.
Qed.

(** X12: when the user is signed in and the insert returns the stored row,
    [createStudySession] returns that row, puts it at the head of the
    sessions cache and leaves the rest of the store alone, announces the
    reward it computed, and the total study time grows by the row's
    duration. *)
Theorem createStudySession_success_prepends :
  forall (db : Supabase) (moduleId : option string) (duration : Q)
         (date : string) (notes : option string) (st : Store)
         (user : User) (row : StudySession) (rest : list StudySession),
    auth_getUser db = Resolves (Some user) ->
    insert_session db (newSession user moduleId duration date notes)
      = Resolves (mkReply (Some (row, rest)) None) ->
    let outcome := createStudySession db moduleId duration date notes st in
    result_of outcome = inl (RetSession row) /\
    sessions (store_of outcome) = row :: sessions st /\
    modules (store_of outcome) = modules st /\
    isLoading (store_of outcome) = isLoading st /\
    trace_of outcome =
      [InsertRow (newSession user moduleId duration date notes);
       ToastLogged (earnedCoins duration)] /\
    getTotalStudyTime (store_of outcome) ==
      getTotalStudyTime st + StudySessions.duration row.
Proof.
  intros db moduleId duration date notes st user row rest Hu Hi outcome.
  subst outcome.
  rewrite (createStudySession_resolved _ _ _ _ _ _ user _ Hu Hi eq_refl).
  simpl. repeat split.
  rewrite !getTotalStudyTime_sum. unfold Qsum. simpl. ring.
Qed.

Lemma createStudySession_success_prepends_witness :
  let outcome := createStudySession accepting (Some "topicB"%string) 25
                   "2024-01-02" None example_store in
  sessions (store_of outcome)
    = stored (newSession (mkUser "u1") (Some "topicB"%string) 25 "2024-01-02" None)
      :: sessions example_store /\
  getTotalStudyTime (store_of outcome) == getTotalStudyTime example_store + 25.
Proof.
  intros outcome.
  destruct (createStudySession_success_prepends accepting (Some "topicB"%string)
              25 "2024-01-02" None example_store (mkUser "u1")
              (stored (newSession (mkUser "u1") (Some "topicB"%string) 25
                         "2024-01-02" None)) [] eq_refl eq_refl)
    as (_ & Hs & _ & _ & _ & Ht).
  split; [exact Hs | exact Ht].
Defined.

(** X13: when the insert resolves with neither an error nor rows,
    [createStudySession] returns undefined rather than null, leaves the
    store unchanged and notifies nobody, neither of success nor of
    failure. *)
Theorem createStudySession_empty_reply_is_silent :
  forall (db : Supabase) (moduleId : option string) (duration : Q)
         (date : string) (notes : option string) (st : Store) (user : User),
    auth_getUser db = Resolves (Some user) ->
    insert_session db (newSession user moduleId duration date notes)
      = Resolves (mkReply None None) ->
    let outcome := createStudySession db moduleId duration date notes st in
    result_of outcome = inl RetUndefined /\
    store_of outcome = st /\
    trace_of outcome = [InsertRow (newSession user moduleId duration date notes)].
Proof.
  intros db moduleId duration date notes st user Hu Hi outcome. subst outcome.
  rewrite (createStudySession_resolved _ _ _ _ _ _ user _ Hu Hi eq_refl).
  simpl. auto.
Qed.

Lemma createStudySession_empty_reply_is_silent_witness :
  let db := mkSupabase (Resolves (Some (mkUser "u1"))) Rejects
                       (fun _ => Rejects)
                       (fun _ => Resolves (mkReply None None)) in
  let outcome := createStudySession db None 25 "2024-01-02" None example_store in
  result_of outcome = inl RetUndefined /\
  store_of outcome = example_store /\
  trace_of outcome = [InsertRow (newSession (mkUser "u1") None 25 "2024-01-02" None)].
Proof.
  intros db.
  apply (createStudySession_empty_reply_is_silent db None 25 "2024-01-02" None
           example_store (mkUser "u1")); reflexivity.
Defined.

(** [createStudySession] asks for at most one insert, of the row it built
    from its arguments. *)
Lemma createStudySession_inserts (db : Supabase) (moduleId : option string)
    (duration : Q) (date : string) (notes : option string) (st : Store) :
  let trace := trace_of (createStudySession db moduleId duration date notes st) in
  (List.length (filter (fun e => match e with InsertRow _ => true | _ => false end)
                  trace) <= 1)%nat /\
  (forall row, In (InsertRow row) trace ->
     exists user, row = newSession user moduleId duration date notes).
Proof.
  unfold createStudySession, try_catch, bind, await, trace_of.
  destruct (auth_getUser db) as [[user|]|]; simpl;
    try (split; [lia | intros row [H | [H | []]]; discriminate]).
  destruct (insert_session db _) as [[d [e|]]|]; simpl;
    [| destruct d as [[r rest]|]; simpl |];
    (split; [lia|]);
    intros row Hin; simpl in Hin;
    repeat (destruct Hin as [Hin | Hin]; try discriminate; try contradiction);
    injection Hin as <-; eauto.
Qed.

(** X14: [logTimerSession] never throws, whatever the remote store does;
    it makes at most one insert, and the row it inserts carries the given
    duration, today's date, the fixed note, the module id if it is a
    non-empty string and null otherwise, and the reward of the duration. *)
Theorem logTimerSession_row :
  forall (db : Supabase) (today : string) (duration : Q)
         (moduleId : option string) (st : Store),
    let outcome := logTimerSession db today duration moduleId st in
    (exists v, result_of outcome = inl v) /\
    (List.length (filter (fun e => match e with InsertRow _ => true | _ => false end)
                    (trace_of outcome)) <= 1)%nat /\
    (forall row, In (InsertRow row) (trace_of outcome) ->
       ns_duration row = duration /\
       ns_date row = today /\
       ns_notes row = Some "Logged from Focus Timer"%string /\
       ns_module_id row = or_null moduleId /\
       ns_earned_coins row = earnedCoins duration).
Proof.
  intros db today duration moduleId st outcome. subst outcome.
  unfold logTimerSession. split; [apply createStudySession_total|].
  destruct (createStudySession_inserts db (or_null moduleId) duration today
              (Some "Logged from Focus Timer"%string) st) as [Hone Hrow].
  split; [exact Hone|].
  intros row Hin. destruct (Hrow row Hin) as [user ->]. simpl. auto.
Qed.

Lemma logTimerSession_row_witness :
  let outcome := logTimerSession accepting "2024-01-02" 25 (Some EmptyString)
                   mounted in
  ns_date (newSession (mkUser "u1") None 25 "2024-01-02"
             (Some "Logged from Focus Timer"%string)) = "2024-01-02"%string /\
  ns_module_id (newSession (mkUser "u1") None 25 "2024-01-02"
                  (Some "Logged from Focus Timer"%string)) = None.
Proof.
  intros outcome.
  destruct (logTimerSession_row accepting "2024-01-02" 25 (Some EmptyString) mounted)
    as (_ & _ & Hrow).
  destruct (Hrow (newSession (mkUser "u1") None 25 "2024-01-02"
                    (Some "Logged from Focus Timer"%string)))
    as (_ & Hd & _ & Hm & _); [now left|].
  split; [exact Hd | exact Hm].
Defined.

(** What [fetchData] does when its three calls resolve. *)
Lemma fetchData_resolved (db : Supabase) (st : Store) (user : User)
    (mreply : Reply (list CourseModule)) (sreply : Reply (list StudySession)) :
  auth_getUser db = Resolves (Some user) ->
  select_modules db = Resolves mreply ->
  select_sessions db (uid user) = Resolves sreply ->
  fetchData db st =
    (inl tt, mkStore (or_empty (data sreply)) (or_empty (data mreply)) false, []).
Proof.
  intros Hu Hm Hs.
  unfold fetchData, try_finally, try_catch, bind, await. simpl.
  rewrite Hu. simpl. rewrite Hm. simpl. rewrite Hs. reflexivity.
Qed.

(** X15: a fetch whose three calls resolve replaces both caches by what
    the queries returned, whatever they held before, clears the loading
    flag and notifies nobody; fetching again from the same remote state
    changes nothing. *)
Theorem fetchData_replaces_caches :
  forall (db : Supabase) (st : Store) (user : User)
         (mreply : Reply (list CourseModule)) (sreply : Reply (list StudySession)),
    auth_getUser db = Resolves (Some user) ->
    select_modules db = Resolves mreply ->
    select_sessions db (uid user) = Resolves sreply ->
    let outcome := fetchData db st in
    result_of outcome = inl tt /\
    sessions (store_of outcome) = or_empty (data sreply) /\
    modules (store_of outcome) = or_empty (data mreply) /\
    isLoading (store_of outcome) = false /\
    trace_of outcome = [] /\
    store_of (fetchData db (store_of outcome)) = store_of outcome.
Proof.
  intros db st user mreply sreply Hu Hm Hs outcome. subst outcome.
  rewrite !(fetchData_resolved db _ user mreply sreply Hu Hm Hs).
  simpl. repeat split.
Qed.

Lemma fetchData_replaces_caches_witness :
  let db := mkSupabase (Resolves (Some (mkUser "u1")))
              (Resolves (mkReply (Some (modules example_store)) None))
              (fun _ => Resolves (mkReply (Some (sessions example_store)) None))
              (fun _ => Rejects) in
  sessions (store_of (fetchData db mounted)) = sessions example_store /\
  modules (store_of (fetchData db mounted)) = modules example_store /\
  store_of (fetchData db example_store) = example_store.
Proof.
  intros db.
  destruct (fetchData_replaces_caches db mounted (mkUser "u1")
              (mkReply (Some (modules example_store)) None)
              (mkReply (Some (sessions example_store)) None)
              eq_refl eq_refl eq_refl) as (_ & Hs & Hm & _).
  destruct (fetchData_replaces_caches db example_store (mkUser "u1")
              (mkReply (Some (modules example_store)) None)
              (mkReply (Some (sessions example_store)) None)
              eq_refl eq_refl eq_refl) as (_ & Hs' & Hm' & Hl' & _).
  split; [exact Hs|]. split; [exact Hm|].
  destruct (store_of (fetchData db example_store)); simpl in *. now subst.
Defined.

(** X16: [fetchData] reads only the data of a query reply.  A sessions
    query that resolves with an error and no data is not handled as a
    failure: nobody is notified, and the sessions cache is emptied, even
    if it held sessions before. *)
Theorem fetchData_ignores_error_reply :
  forall (db : Supabase) (st : Store) (user : User)
         (mreply : Reply (list CourseModule)) (e : string),
    auth_getUser db = Resolves (Some user) ->
    select_modules db = Resolves mreply ->
    select_sessions db (uid user) = Resolves (mkReply None (Some e)) ->
    let outcome := fetchData db st in
    result_of outcome = inl tt /\
    sessions (store_of outcome) = [] /\
    trace_of outcome = [].
Proof.
  intros db st user mreply e Hu Hm Hs outcome. subst outcome.
  rewrite (fetchData_resolved db _ user mreply _ Hu Hm Hs). simpl. auto.
Qed.

Lemma fetchData_ignores_error_reply_witness :
  let db := mkSupabase (Resolves (Some (mkUser "u1")))
              (Resolves (mkReply (Some []) None))
              (fun _ => Resolves (mkReply None (Some "permission denied"%string)))
              (fun _ => Rejects) in
  sessions example_store <> [] /\
  sessions (store_of (fetchData db example_store)) = [] /\
  trace_of (fetchData db example_store) = [].
Proof.
  intros db.
  destruct (fetchData_ignores_error_reply db example_store (mkUser "u1")
              (mkReply (Some []) None) "permission denied" eq_refl eq_refl eq_refl)
    as (_ & Hs & Ht).
  split; [discriminate|]. split; [exact Hs | exact Ht].
Defined.

Lemma Qsum_app (a b : list Q) : Qsum (a ++ b) == Qsum a + Qsum b.
Proof.
  unfold Qsum. induction a as [|x a IH]; simpl; [ring | rewrite IH; ring].
Qed.

Lemma Qsum_perm (a b : list Q) : Permutation a b -> Qsum a == Qsum b.
Proof.
  unfold Qsum.
  induction 1 as [|x a b _ IH|x y a|a b c _ IH1 _ IH2]; simpl.
  - reflexivity.
  - now rewrite IH.
  - ring.
  - now rewrite IH1.
Qed.

(** Setting a topic to a number that is its old minutes plus [d] adds [d]
    to the sum of all entries. *)
Lemma set_own_sum (k : string) (q d : Q) (o : Stats) :
  q == value_of k o + d ->
  Qsum (map (fun e => num (snd e)) (set_own k (Num q) o)) ==
  Qsum (map (fun e => num (snd e)) o) + d.
Proof.
  unfold Qsum, value_of. induction o as [|[k' v'] o IH]; cbn [set_own own]; intros Hq.
  - simpl in *. lra.
  - destruct (String.eqb k' k); cbn [map fold_right snd num] in *.
    + lra.
    + specialize (IH Hq). lra.
Qed.

Lemma stats_sum (l : list StudySession) : forall (o : Stats),
  plain_ids l -> numeric o ->
  Qsum (map (fun e => num (snd e)) (fold_left add_session l o)) ==
  Qsum (map (fun e => num (snd e)) o) + Qsum (map duration (filter tracked l)).
Proof.
  induction l as [|s l IH]; intros o Hp Hn; simpl.
  - unfold Qsum. simpl. ring.
  - apply plain_ids_cons in Hp. destruct Hp as [Hs Hl].
    destruct (topic_of s) as [k|] eqn:E.
    + assert (Ht : tracked s = true) by (unfold tracked; now rewrite E).
      destruct (add_session_topic o s k Hn (Hs k eq_refl) E) as (q & Eq & Hq).
      rewrite Eq, Ht, IH, (set_own_sum k q _ o Hq) by (auto using numeric_set).
      unfold Qsum. simpl. ring.
    + assert (Ht : tracked s = false) by (unfold tracked; now rewrite E).
      rewrite (add_session_no_topic o s E), Ht, IH by auto. ring.
Qed.

Lemma Qsum_split (f : StudySession -> bool) (l : list StudySession) :
  Qsum (map duration l) ==
  Qsum (map duration (filter f l)) +
  Qsum (map duration (filter (fun s => negb (f s)) l)).
Proof.
  unfold Qsum. induction l as [|s l IH]; simpl; [ring|].
  destruct (f s); simpl; rewrite IH; ring.
Qed.

Lemma numeric_values (l : Stats) :
  numeric l -> map snd l = map Num (map (fun e => num (snd e)) l).
Proof.
  unfold numeric. induction 1 as [|e l [q Hq] _ IH]; simpl; [reflexivity|].
  now rewrite IH, Hq.
Qed.

(** X17: when no session names a member of Object.prototype as its
    module, every minute of cached study time is counted exactly once: the
    totals of the module ranking are numbers, and together with the
    durations of the sessions that have no module they add up to the total
    study time. *)
Theorem study_time_is_partitioned :
  forall (st : Store),
    plain_ids (sessions st) ->
    exists totals : list Q,
      map total (getMostStudiedModules st) = map Num totals /\
      Qsum totals +
      Qsum (map duration (filter (fun s => negb (tracked s)) (sessions st)))
      == getTotalStudyTime st.
Proof.
  intros st Hp.
  set (ranked := sort (Object_entries (moduleStats_of (sessions st)))).
  exists (map (fun e => num (snd e)) ranked). split.
  - unfold getMostStudiedModules. fold ranked. rewrite map_map. simpl.
    apply numeric_values, ranking_numeric, Hp.
  - assert (Hrank : Qsum (map (fun e => num (snd e)) ranked) ==
                    Qsum (map duration (filter tracked (sessions st)))).
    { unfold ranked.
      rewrite (Qsum_perm _ _ (Permutation_map (fun e => num (snd e))
                                (ranked_entries (sessions st)))).
      unfold moduleStats_of. rewrite stats_sum by (auto; constructor).
      unfold Qsum. simpl. ring. }
    rewrite Hrank, getTotalStudyTime_sum.
    symmetry. apply Qsum_split.
Qed.

Lemma study_time_is_partitioned_witness :
  exists totals : list Q,
    map total (getMostStudiedModules example_store) = map Num totals /\
    Qsum totals +
    Qsum (map duration (filter (fun s => negb (tracked s)) (sessions example_store)))
    == getTotalStudyTime example_store.
Proof.
  apply (study_time_is_partitioned example_store).
  intros s k [<- | [<- | [<- | []]]] [= <-]; reflexivity.
Defined.

(** X18: once a session for a module has been logged, and no cached
    session names a member of Object.prototype as its module, the ranking
    lists that module, with the minutes it had before plus the duration of
    the new session. *)
Theorem logged_session_raises_its_module :
  forall (db : Supabase) (moduleId : option string) (duration : Q)
         (date : string) (notes : option string) (st : Store)
         (user : User) (row : StudySession) (rest : list StudySession)
         (k : string),
    auth_getUser db = Resolves (Some user) ->
    insert_session db (newSession user moduleId duration date notes)
      = Resolves (mkReply (Some (row, rest)) None) ->
    module_id row = Some k -> k <> EmptyString ->
    plain_ids (row :: sessions st) ->
    let after := store_of (createStudySession db moduleId duration date notes st) in
    exists e q,
      In e (getMostStudiedModules after) /\
      StudySessions.moduleId e = k /\
      total e = Num q /\
      q == minutes_for k (sessions st) + StudySessions.duration row.
Proof.
  intros db moduleId duration date notes st user row rest k Hu Hi Hm Hk Hp after.
  assert (E : after = mkStore (row :: sessions st) (modules st) (isLoading st)).
  { unfold after.
    now rewrite (createStudySession_resolved _ _ _ _ _ _ user _ Hu Hi eq_refl). }
  assert (Hp' : plain_ids (sessions after)) by (rewrite E; exact Hp).
  assert (Ht : topic_of row = Some k) by now apply topic_of_spec.
  destruct (ranking_has after k Hp') as (e & Hin & He).
  { exists row. rewrite E. simpl. auto. }
  destruct (ranking_total after e Hp' Hin) as (q & Hq & Hsum).
  exists e, q. split; [exact Hin|]. split; [exact He|]. split; [exact Hq|].
  rewrite Hsum, He, E. simpl.
  rewrite minutes_for_cons by exact Hk. rewrite Ht, String.eqb_refl. ring.
Qed.

Lemma logged_session_raises_its_module_witness :
  let after := store_of (createStudySession accepting (Some "topicB"%string) 25
                           "2024-01-02" None example_store) in
  exists e q,
    In e (getMostStudiedModules after) /\
    StudySessions.moduleId e = "topicB"%string /\
    total e = Num q /\
    q == minutes_for "topicB" (sessions example_store) + 25.
Proof.
  apply (logged_session_raises_its_module accepting (Some "topicB"%string) 25
           "2024-01-02" None example_store (mkUser "u1")
           (stored (newSession (mkUser "u1") (Some "topicB"%string) 25
                      "2024-01-02" None)) [] "topicB");
    try reflexivity; [discriminate|].
  intros s k [<- | [<- | [<- | [<- | []]]]] [= <-]; reflexivity.
Defined.

(** X19: when no session names a member of Object.prototype as its
    module, the ranking is empty exactly when no cached session has a
    module; in particular it is empty for an empty cache. *)
Theorem ranking_empty_iff_no_module :
  forall (st : Store),
    plain_ids (sessions st) ->
    (getMostStudiedModules st = [] <->
     forall s, In s (sessions st) -> tracked s = false).
Proof.
  intros st Hp. split.
  - intros E s Hs. unfold tracked.
    destruct (topic_of s) as [k|] eqn:Ht; [|reflexivity].
    destruct (ranking_has st k Hp) as (e & Hin & _); [eauto|].
    rewrite E in Hin. destruct Hin.
  - intros Hnone.
    destruct (getMostStudiedModules st) as [|e l] eqn:E; [reflexivity|].
    assert (Hin : In (moduleId e) (map moduleId (getMostStudiedModules st)))
      by (rewrite E; now left).
    apply (Permutation_in _ (ranking_keys st)), stats_keys in Hin;
      [|exact Hp | constructor].
    destruct Hin as [[] | (s & Hs & Ht)].
    apply Hnone in Hs. unfold tracked in Hs. now rewrite Ht in Hs.
Qed.

Lemma ranking_empty_iff_no_module_witness :
  getMostStudiedModules mounted = [] /\
  getMostStudiedModules
    (mkStore [mkStudySession "s" "u" None 30 "2024-01-01" None None None;
              mkStudySession "s" "u" (Some EmptyString) 10 "2024-01-01" None None None]
             [] false) = [].
Proof.
  split; apply ranking_empty_iff_no_module; simpl.
  - intros s k [].
  - intros s [].
  - intros s k [<- | [<- | []]] [= <-]. reflexivity.
  - intros s [<- | [<- | []]]; reflexivity.
Defined.

(** X20: the reward the store computes never falls below one coin and
    never shrinks when the session gets longer. *)
Theorem reward_is_monotone :
  forall (d1 d2 : Q),
    d1 <= d2 ->
    (1 <= earnedCoins d1)%Z /\ (earnedCoins d1 <= earnedCoins d2)%Z.
Proof.
  intros d1 d2 Hle. unfold earnedCoins.
  assert (H : (Qfloor (d1 / 10) <= Qfloor (d2 / 10))%Z).
  { apply Qfloor_resp_le. unfold Qdiv. apply Qmult_le_compat_r; [exact Hle|].
    discriminate. }
  lia.
Qed.

Lemma reward_is_monotone_witness :
  (1 <= earnedCoins 0)%Z /\ (earnedCoins 0 <= earnedCoins 25)%Z.
Proof. apply (reward_is_monotone 0 25). discriminate. Defined.

End StoreExtras.

(** * From the engine to the store *)

Section TimerToStore.

Import FocusTimer.
Local Open Scope Z_scope.

Lemma minutes_of_seconds (m : Z) : (inject_Z (m * 60) / 60 == inject_Z m)%Q.
Proof.
  unfold Qeq, Qdiv, Qmult, Qinv, inject_Z. simpl. lia.
Qed.

(** X21: a countdown of m minutes that runs to completion asks once for a
    session to be logged, and the row [logTimerSession] then inserts is a
    session of m minutes without a module that carries the reward
    max(1, floor(m / 10)). *)
Theorem completed_countdown_logs_its_minutes :
  forall (m : Z),
    0 < m ->
    let result := run (Configure m :: Start :: seconds (Z.to_nat (m * 60))) initial in
    let logged := (inject_Z (m * 60) / 60)%Q in
    log_calls (snd result) = [LogTimerSession logged] /\
    forall (db : StudySessions.Supabase) (today : string)
           (st : StudySessions.Store) (row : StudySessions.NewSession),
      In (StudySessions.InsertRow row)
         (StudySessions.trace_of
            (StudySessions.logTimerSession db today logged None st)) ->
      (StudySessions.ns_duration row == inject_Z m)%Q /\
      StudySessions.ns_module_id row = None /\
      StudySessions.ns_earned_coins row = Z.max 1 (m / 10).
Proof.
  intros m Hm result logged. split.
  - subst result. cbn [run].
    assert (E : step (Configure m) initial =
                (mkTimer (m * 60) (m * 60) idle 0 None [] 1, [])).
    { unfold step. simpl handler. unfold updateDuration. simpl r_status.
      cbv iota. rewrite sync_timeLeft_idle; reflexivity. }
    rewrite E, step_start_shape;
      [|apply one_source_nil; reflexivity | left; reflexivity].
    destruct (Z.to_nat (m * 60)) as [|n] eqn:En; [lia|].
    erewrite countdown; try reflexivity; [|cbn [timeLeft]; lia].
    unfold logged. simpl. reflexivity.
  - intros db today st row Hin.
    destruct (createStudySession_inserts db (StudySessions.or_null None) logged
                today (Some "Logged from Focus Timer"%string) st) as [_ Hrow].
    destruct (Hrow row Hin) as [user ->]. simpl.
    split; [apply minutes_of_seconds|]. split; [reflexivity|].
    unfold StudySessions.earnedCoins, logged.
    rewrite minutes_of_seconds. apply store_reward_minutes.
Qed.

Lemma completed_countdown_logs_its_minutes_witness :
  let result := run (Configure 25 :: Start :: seconds 1500) initial in
  log_calls (snd result) = [LogTimerSession (inject_Z (25 * 60) / 60)%Q] /\
  StudySessions.ns_earned_coins
    (StudySessions.newSession (StudySessions.mkUser "u1") None
       (inject_Z (25 * 60) / 60)%Q "2024-01-02"
       (Some "Logged from Focus Timer"%string)) = Z.max 1 (25 / 10).
Proof.
  destruct (completed_countdown_logs_its_minutes 25) as [Hlog Hrow]; [lia|].
  split; [exact Hlog|].
  destruct (Hrow StudySessions.accepting "2024-01-02"%string StudySessions.mounted
              (StudySessions.newSession (StudySessions.mkUser "u1") None
                 (inject_Z (25 * 60) / 60)%Q "2024-01-02"
                 (Some "Logged from Focus Timer"%string)))
    as (_ & _ & Hc); [now left | exact Hc].
Defined.

End TimerToStore.

(** * The order of ties in the ranking *)

Section RankingTies.

Import StudySessions.
Local Open Scope Q_scope.

Lemma keys_set_order (k : string) (v : Value) (o : Stats) :
  map fst (set_own k v o) =
  if existsb (String.eqb k) (map fst o) then map fst o else map fst o ++ [k].
Proof.
  induction o as [|[k' v'] o IH]; simpl; [reflexivity|].
  rewrite (String.eqb_sym k k').
  destruct (String.eqb k' k); simpl; [reflexivity|].
  rewrite IH. now destruct (existsb (String.eqb k) (map fst o)).
Qed.

Lemma stats_keys_order (l : list StudySession) : forall (o : Stats),
  plain_ids l -> numeric o ->
  map fst (fold_left add_session l o) = fold_left see l (map fst o).
Proof.
  induction l as [|s l IH]; intros o Hp Hn; simpl; [reflexivity|].
  apply plain_ids_cons in Hp. destruct Hp as [Hs Hl]. unfold see at 2.
  destruct (topic_of s) as [k|] eqn:E.
  - destruct (add_session_topic o s k Hn (Hs k eq_refl) E) as (q & Eq & _).
    rewrite Eq, IH by (auto using numeric_set). f_equal. apply keys_set_order.
  - rewrite (add_session_no_topic o s E). now apply IH.
Qed.

(** Without array-index keys, [Object.entries] lists the properties in
    insertion order. *)
Lemma Object_entries_plain (o : Stats) :
  (forall e, In e o -> is_index e = false) -> Object_entries o = o.
Proof.
  intros H. unfold Object_entries.
  induction o as [|e o IH]; simpl; [reflexivity|].
  rewrite (H e) by now left. simpl.
  assert (IH' := IH (fun e' He' => H e' (or_intror He'))).
  destruct (filter is_index o) as [|x l] eqn:E.
  - simpl in *. now rewrite IH'.
  - exfalso.
    assert (Hx : In x (filter is_index o)) by (rewrite E; now left).
    apply filter_In in Hx. destruct Hx as [Hin Hidx].
    rewrite (H x) in Hidx by now right. discriminate.
Qed.

(** Whether an entry holds the number [v]. *)
Lemma sort_insert_stable (P : string * Value -> bool) (v : Q)
    (x : string * Value) (l : Stats) :
  (forall e, P e = match snd e with Num q => Qeq_bool q v | Text => false end) ->
  filter P (sort_insert x l) = filter P (x :: l).
Proof.
  intros HP. induction l as [|y l IH]; [reflexivity|].
  cbn [sort_insert].
  destruct (precedes x y) eqn:E; [reflexivity|].
  cbn [filter] in *. rewrite IH.
  destruct (P x) eqn:Ex; [|reflexivity].
  destruct (P y) eqn:Ey; [|reflexivity].
  exfalso. rewrite HP in Ex, Ey. unfold precedes, compareFn in E.
  destruct (snd x) as [a|]; [|discriminate].
  destruct (snd y) as [b|]; [|discriminate].
  apply Qeq_bool_iff in Ex, Ey.
  assert (Hle : Qle_bool (b - a) 0 = true) by (apply Qle_bool_iff; lra).
  congruence.
Qed.

(** The sort is stable: entries of equal total keep their order. *)
Lemma sort_stable (P : string * Value -> bool) (v : Q) (l : Stats) :
  (forall e, P e = match snd e with Num q => Qeq_bool q v | Text => false end) ->
  filter P (sort l) = filter P l.
Proof.
  intros HP. induction l as [|x l IH]; [reflexivity|].
  cbn [sort fold_right]. fold (sort l).
  rewrite (sort_insert_stable P v) by exact HP. cbn [filter]. now rewrite IH.
Qed.

Lemma filter_keys (P : string * Value -> bool) (R : string -> bool) (l : Stats) :
  (forall e, In e l -> P e = R (fst e)) ->
  map fst (filter P l) = filter R (map fst l).
Proof.
  intros H. induction l as [|e l IH]; simpl; [reflexivity|].
  rewrite <- (H e) by now left.
  rewrite <- IH by (intros e' He'; apply H; now right).
  now destruct (P e).
Qed.

Lemma Qeq_bool_comp (a b v : Q) : a == b -> Qeq_bool a v = Qeq_bool b v.
Proof.
  intros E. destruct (Qeq_bool b v) eqn:Eb.
  - apply Qeq_bool_iff. apply Qeq_bool_iff in Eb. now rewrite E.
  - destruct (Qeq_bool a v) eqn:Ea; [|reflexivity].
    apply Qeq_bool_iff in Ea. rewrite E in Ea. apply Qeq_bool_iff in Ea.
    congruence.
Qed.

(** X22: when no module id is an array index (a canonical decimal
    numeral) or the name of a member of Object.prototype, modules of equal
    total appear in the ranking in the order in which the cached sessions
    first mention them. *)
Theorem ties_keep_first_seen_order :
  forall (st : Store) (v : Q),
    (forall s k, In s (sessions st) -> module_id s = Some k ->
                 array_index k = None /\ inherited k = false) ->
    map moduleId (filter (has_total v) (getMostStudiedModules st))
    = filter (fun k => Qeq_bool (minutes_for k (sessions st)) v)
             (first_seen (sessions st)).
Proof.
  intros st v Hids.
  assert (Hp : plain_ids (sessions st)) by (intros s k Hs Hm; now apply (Hids s k)).
  set (stats := moduleStats_of (sessions st)).
  assert (Hnum : numeric stats) by (apply stats_numeric; [exact Hp | constructor]).
  assert (Hkeys : map fst stats = first_seen (sessions st))
    by (apply (stats_keys_order (sessions st) []); [exact Hp | constructor]).
  assert (Hnd : NoDup (map fst stats)) by (apply stats_NoDup; constructor).
  assert (Hkey : forall k x, In (k, x) stats ->
            k <> EmptyString /\ array_index k = None).
  { intros k x Hin.
    assert (Hk : In k (map fst stats)) by (change k with (fst (k, x)); now apply in_map).
    apply stats_keys in Hk; [|exact Hp | constructor].
    destruct Hk as [[] | (s & Hs & Ht)].
    apply topic_of_spec in Ht. destruct Ht as [Hm Hne].
    split; [exact Hne | now apply (Hids s k)]. }
  assert (Hentries : Object_entries stats = stats).
  { apply Object_entries_plain. intros [k x] Hin. unfold is_index. simpl.
    now rewrite (proj2 (Hkey k x Hin)). }
  unfold getMostStudiedModules. fold stats. rewrite Hentries.
  set (P := fun e : string * Value =>
              match snd e with Num q => Qeq_bool q v | Text => false end).
  assert (Hf : forall l : Stats,
             map moduleId
               (filter (has_total v)
                  (map (fun e => mkModuleStat (fst e) (snd e)
                                   (title_of (modules st) (fst e))) l))
             = map fst (filter P l)).
  { induction l as [|e l IH]; simpl; [reflexivity|].
    unfold has_total at 1, P at 1. simpl.
    destruct (snd e) as [q|]; [destruct (Qeq_bool q v)|]; simpl; now rewrite IH. }
  rewrite Hf, (sort_stable P v) by reflexivity. rewrite <- Hkeys.
  apply filter_keys. intros [k x] Hin. unfold P. simpl.
  destruct (Hkey k x Hin) as [Hk _].
  unfold numeric in Hnum. rewrite Forall_forall in Hnum.
  destruct (Hnum _ Hin) as [q Hq]. simpl in Hq. subst x.
  apply Qeq_bool_comp.
  apply (own_In _ _ _ Hnd) in Hin.
  assert (Hv := stats_value (sessions st) [] k Hp ltac:(constructor) Hk).
  fold (moduleStats_of (sessions st)) in Hv. fold stats in Hv.
  unfold value_of in Hv. rewrite Hin in Hv. simpl in Hv. rewrite Hv. ring.
Qed.

Lemma ties_keep_first_seen_order_witness :
  let st := mkStore [session_for "zeta" 10; session_for "alpha" 4;
                     session_for "mid" 30; session_for "alpha" 6] [] false in
  map moduleId (getMostStudiedModules st) = ["mid"; "zeta"; "alpha"]%string /\
  map moduleId (filter (has_total 10) (getMostStudiedModules st))
  = ["zeta"; "alpha"]%string.
Proof.
  intros st. split; [reflexivity|].
  rewrite (ties_keep_first_seen_order st 10); [reflexivity|].
  intros s k [<- | [<- | [<- | [<- | []]]]] [= <-]; split; reflexivity.
Defined.

(** X24: a session whose module id is "__proto__" never reaches the
    ranking: assigning to that name sets no own property of
    [moduleStats], so the ranking is the one of the store without those
    sessions, whatever else the cache holds. *)
Theorem proto_sessions_are_dropped :
  forall (st : Store),
    getMostStudiedModules st =
    getMostStudiedModules
      (mkStore (filter (fun s => negb (has_module "__proto__" s)) (sessions st))
               (modules st) (isLoading st)) /\
    ~ In "__proto__"%string (map moduleId (getMostStudiedModules st)).
Proof.
  intros st.
  assert (Hfold : forall l o,
            fold_left add_session l o =
            fold_left add_session
              (filter (fun s => negb (has_module "__proto__" s)) l) o).
  { induction l as [|s l IH]; intros o; cbn [fold_left filter]; [reflexivity|].
    destruct (has_module "__proto__" s) eqn:Eh; cbn [negb fold_left].
    - assert (E : add_session o s = o).
      { unfold has_module in Eh. unfold add_session.
        destruct (module_id s) as [k|]; [|discriminate].
        apply String.eqb_eq in Eh. subst k. reflexivity. }
      rewrite E. apply IH.
    - apply IH. }
  assert (Hown : forall l o,
            ~ In "__proto__"%string (map fst o) ->
            ~ In "__proto__"%string (map fst (fold_left add_session l o))).
  { induction l as [|s l IH]; intros o Ho; simpl; [exact Ho|].
    apply IH. unfold add_session.
    destruct (module_id s) as [k|]; [|exact Ho].
    destruct (truthy k); [|exact Ho].
    unfold assign. destruct (String.eqb_spec k "__proto__") as [->|Hne];
      [exact Ho|].
    rewrite keys_set. intros [E | Hin]; [congruence | contradiction]. }
  split.
  - unfold getMostStudiedModules, moduleStats_of. simpl. now rewrite <- Hfold.
  - intros Hin. apply (Permutation_in _ (ranking_keys st)) in Hin.
    revert Hin. apply Hown. intros [].
Qed.

End RankingTies.

(** * Abandoned sessions *)

Section EarlyStop.

Import FocusTimer.
Local Open Scope Z_scope.

(** Ticks that leave more than a second only count down. *)
Lemma seconds_decrement (k : nat) : forall (t : Timer) (i : Interval),
  scheduled t = [i] -> Z.of_nat k < timeLeft t ->
  run (seconds k) t = (setTimeLeft (timeLeft t - Z.of_nat k) t, []).
Proof.
  induction k as [|k IH]; intros t i E Hk.
  - simpl. rewrite Z.sub_0_r. now destruct t.
  - change (seconds (S k)) with (Second :: seconds k). cbn [run].
    rewrite (step_second_decrement t i E) by lia.
    rewrite (IH (setTimeLeft (timeLeft t - 1) t) i E) by (simpl; lia).
    simpl. unfold setTimeLeft. simpl. do 2 f_equal. lia.
Qed.

(** X23: a session that is stopped before its last second earns nothing:
    the coins are as before the start, no session is logged, no completion
    is announced, and the engine is idle again with the full duration on
    the clock and no tick scheduled. *)
Theorem stopping_early_forfeits_reward :
  forall (t : Timer) (k : nat),
    reachable t ->
    status t = idle \/ status t = paused ->
    Z.of_nat k < timeLeft t ->
    let result := run (Start :: seconds k ++ [Stop]) t in
    coins (fst result) = coins t /\
    snd result = [ToastStopped] /\
    status (fst result) = idle /\
    timeLeft (fst result) = duration t /\
    scheduled (fst result) = [].
Proof.
  intros t k Hr Hs Hk result. subst result.
  assert (H1 := reachable_one_source t Hr).
  cbn [run]. rewrite (step_start_shape t H1 Hs).
  set (r := mkTimer (duration t) (timeLeft t) running (coins t)
                    (Some (next_handle t))
                    [mkInterval (next_handle t) (duration t)]
                    (Pos.succ (next_handle t))).
  rewrite run_app, (seconds_decrement k r _ eq_refl) by exact Hk.
  cbn [fst snd run].
  destruct (step_stop_shape (setTimeLeft (timeLeft r - Z.of_nat k) r)) as (E & _).
  destruct (step Stop (setTimeLeft (timeLeft r - Z.of_nat k) r)) as [t' e'] eqn:Es.
  simpl in E. subst t'.
  assert (He : e' = [ToastStopped]).
  { unfold step in Es. simpl in Es. now injection Es as _ <-. }
  subst e'. simpl. rewrite Pos.eqb_refl. simpl. auto.
Qed.

Lemma stopping_early_forfeits_reward_witness :
  let result := run (Start :: seconds 1499 ++ [Stop]) initial in
  coins (fst result) = 0 /\
  snd result = [ToastStopped] /\
  status (fst result) = idle /\
  timeLeft (fst result) = 1500 /\
  scheduled (fst result) = [].
Proof.
  apply (stopping_early_forfeits_reward initial 1499).
  - exact reach_initial.
  - left; reflexivity.
  - simpl. lia.
Defined.

End EarlyStop.
